(** * podperf: the request pipeline of [app/main.go]

    A shallow embedding of the sort service: the merge sort and its
    fork-join variant, the dataset generator, and the [/sort] handler
    with the metrics, spans, log lines and response it produces. *)

From Equations Require Import Equations.
From stdpp Require Import base list sorting strings gmap.
From Stdlib Require Import ZArith Zquot Lia Ascii DecimalString DecimalZ.

Local Open Scope Z_scope.

(** Case analysis on a computed value that keeps the equation, for the
    termination arguments of the loops below. *)
Definition inspect {A : Type} (a : A) : {b : A | a = b} := exist _ a eq_refl.

(** ** Slices of [int]

    A Go [[]int] is a list of integers.  The sort never does arithmetic
    on the elements, only [<=], so the 64-bit range of [int] plays no
    role for them; lengths and indices are Go [int]s as well and are
    kept in [Z]. *)

Module Sort.

(** [len(items)] *)
Definition len (items : list Z) : Z := Z.of_nat (length items).

(** [items[:m]] and [items[m:]]; Go panics unless [0 <= m <= len(items)],
    which [middle_in_bounds] below shows for every slice the sort takes. *)
Definition slice_to (m : Z) (items : list Z) : list Z := take (Z.to_nat m) items.
Definition slice_from (m : Z) (items : list Z) : list Z := drop (Z.to_nat m) items.

(** The loop of [merge]: [i] and [j] walk over [left] and [right] (here
    [l] and [r], the names [left] and [right] being constructors), and
    [result] grows by one element per iteration. *)
Equations? merge_loop (l r : list Z) (i j : nat) (result : list Z)
  : nat * nat * list Z
  by wf ((length l - i) + (length r - j))%nat lt :=
  merge_loop l r i j result
    with inspect ((i <? length l)%nat && (j <? length r)%nat) := {
    | exist _ true Hc with (nth i l 0 <=? nth j r 0) := {
        | true => merge_loop l r (S i) j (result ++ [nth i l 0]);
        | false => merge_loop l r i (S j) (result ++ [nth j r 0]) };
    | exist _ false _ => (i, j, result) }.
Proof.
  all: apply andb_prop in Hc as [Hi Hj];
    apply Nat.ltb_lt in Hi; apply Nat.ltb_lt in Hj; lia.
Qed.

(** [merge]: the loop, then the two [append]s of what is left. *)
Definition merge (l r : list Z) : list Z :=
  let '(i, j, result) := merge_loop l r 0 0 [] in
  (result ++ drop i l) ++ drop j r.

(** [middle := n / 2]; Go's [/] truncates, which is [Z.quot]. *)
Definition middle (items : list Z) : Z := len items ÷ 2.

(** Termination of the two sorts: both halves of a slice of length at
    least two are strictly shorter than it. *)
Ltac halves_shorter Hn :=
  apply Z.leb_gt in Hn; unfold slice_to, slice_from, middle, len in *;
  rewrite ?length_take, ?length_drop;
  match goal with
  | |- context [Z.of_nat (length ?items) ÷ 2] =>
      pose proof (Z.quot_lt (Z.of_nat (length items)) 2);
      pose proof (Z.quot_le_lower_bound (Z.of_nat (length items)) 2 1)
  end; lia.

Equations? mergeSort (items : list Z) : list Z by wf (length items) lt :=
  mergeSort items with inspect (len items <=? 1) := {
    | exist _ true _ => items;
    | exist _ false Hn =>
        merge (mergeSort (slice_to (middle items) items))
              (mergeSort (slice_from (middle items) items)) }.
Proof. all: halves_shorter Hn. Qed.

(** [threshold := 100000] *)
Definition threshold : Z := 100000.

(** What [parallelMergeSort] did with a slice: returned it as it was
    ([n <= 1]), handed it to [mergeSort] on the calling goroutine
    ([n <= threshold]), or started two goroutines, one per half, waited
    for both ([wg.Wait()]) and merged what they left in [left] and
    [right]. *)
Inductive Run : Type :=
| Returned (items : list Z)
| Sequential (items : list Z)
| ForkJoin (mid : Z) (goLeft goRight : Run).

(** [parallelMergeSort], with the run it made.  Each goroutine reads its
    own half of [items] and writes its own variable, and the merge
    happens after [wg.Wait()], so the value is that of the two calls
    whatever their interleaving. *)
Equations? parallelMergeSort_run (items : list Z) : list Z * Run
  by wf (length items) lt :=
  parallelMergeSort_run items with inspect (len items <=? 1) := {
    | exist _ true _ => (items, Returned items);
    | exist _ false Hn with len items <=? threshold := {
        | true => (mergeSort items, Sequential items);
        | false =>
            (merge (parallelMergeSort_run (slice_to (middle items) items)).1
                   (parallelMergeSort_run (slice_from (middle items) items)).1,
             ForkJoin (middle items)
                   (parallelMergeSort_run (slice_to (middle items) items)).2
                   (parallelMergeSort_run (slice_from (middle items) items)).2) } }.
Proof. all: halves_shorter Hn. Qed.

Definition parallelMergeSort (items : list Z) : list Z :=
  (parallelMergeSort_run items).1.

(** The goroutines a run started, and how deep the forks nest. *)
Fixpoint goroutines (t : Run) : nat :=
  match t with
  | Returned _ | Sequential _ => 0
  | ForkJoin _ a b => 2 + goroutines a + goroutines b
  end.

Fixpoint fanout_levels (t : Run) : nat :=
  match t with
  | Returned _ | Sequential _ => 0
  | ForkJoin _ a b => S (Nat.max (fanout_levels a) (fanout_levels b))
  end.

End Sort.

(** ** What the Go runtime supplies

    [math/rand] and [time.Duration.String] belong to the Go standard
    library, not to this repository: the state of the global random
    source, [rand.Intn] on it, and the text of a duration are taken as
    given. *)

Class GoRuntime := {
  RngState : Type;
  rand_Intn : Z → RngState → Z * RngState;
  Duration_String : Z → string;
}.

(** What the documentation of the two promises: [Intn(n)] is in
    [[0,n)] for positive [n], and a duration never prints as the empty
    string (zero prints as [0s]). *)
Class GoRuntimeSpec (RT : GoRuntime) : Prop := {
  rand_Intn_range : ∀ n s, 0 < n → 0 <= (rand_Intn n s).1 < n;
  Duration_String_nonempty : ∀ d, Duration_String d ≠ EmptyString;
}.

(** [make([]int, n)]: the runtime's [makeslice] panics, with [len out of
    range], when [n] is negative or when the [8 * n] bytes of the slice
    exceed [maxAlloc], which is [2 ^ 48] on the 64-bit platforms the
    service is built for; so [n] may be [2 ^ 45] at most, and a value
    outside the range of [int] is out of range here as well.  A machine
    that runs out of memory below that bound ends the process with a
    fatal error, which is not a panic and not part of this model. *)
Definition maxAlloc : Z := 2 ^ 48.

Definition make_panics (n : Z) : bool := (n <? 0) || (maxAlloc <? 8 * n).

(** ** [int64], [%d] and [strconv.ParseInt] *)

Module Strconv.

Definition minInt64 : Z := - 2 ^ 63.
Definition maxInt64 : Z := 2 ^ 63 - 1.

(** The value an [int64] holds after arithmetic on it wrapped around. *)
Definition wrap64 (z : Z) : Z := (z + 2 ^ 63) mod 2 ^ 64 - 2 ^ 63.

(** [fmt.Sprintf("%d", z)] *)
Definition formatInt (z : Z) : string := NilZero.string_of_int (Z.to_int z).

(** [fmt.Sprintf("%v", xs)] for an [[]int]: the elements in decimal,
    separated by spaces, in square brackets. *)
Definition formatSlice (xs : list Z) : string :=
  ("[" +:+ String.concat " " (formatInt <$> xs) +:+ "]")%string.

(** [strconv.ParseInt(s, 10, 64)]: the value and whether [err != nil].
    An optional sign and decimal digits; a syntax error gives [0], a
    value out of range gives the nearest bound, both with an error. *)
Definition ParseInt (s : string) : Z * bool :=
  let digits :=
    match s with
    | String "+"%char s' => option_map Decimal.Pos (NilZero.uint_of_string s')
    | _ => NilZero.int_of_string s
    end in
  match digits with
  | None => (0, true)
  | Some d =>
      let z := Z.of_int d in
      if z <? minInt64 then (minInt64, true)
      else if maxInt64 <? z then (maxInt64, true)
      else (z, false)
  end.

End Strconv.

(** ** The dataset generator *)

Module Generator.
Section WithRuntime.
Context `{RT : GoRuntime}.

(** [for i := 0; i < size; i++ { numbers[i] = rand.Intn(20000) }] *)
Equations? generate_loop (size i : Z) (numbers : list Z) (s : RngState)
  : list Z * RngState
  by wf (Z.to_nat (size - i)) lt :=
  generate_loop size i numbers s with inspect (i <? size) := {
    | exist _ true Hi =>
        generate_loop size (i + 1)
          (<[Z.to_nat i := (rand_Intn 20000 s).1]> numbers)
          (rand_Intn 20000 s).2;
    | exist _ false _ => (numbers, s) }.
Proof. apply Z.ltb_lt in Hi. lia. Qed.

(** [generateRandomNumbers]; where [make([]int, size)] panics, on a
    negative size and on one above [2 ^ 45], the result is [None]. *)
Definition generateRandomNumbers (size : Z) (s : RngState)
  : option (list Z * RngState) :=
  if make_panics size then None
  else Some (generate_loop size 0 (replicate (Z.to_nat size) 0) s).

(** What the loop is meant to leave in the slice: [n] draws from the
    source, in order. *)
Fixpoint draws (n : nat) (s : RngState) : list Z * RngState :=
  match n with
  | O => ([], s)
  | S n' =>
      let '(rest, s') := draws n' (rand_Intn 20000 s).2 in
      ((rand_Intn 20000 s).1 :: rest, s')
  end.

End WithRuntime.
End Generator.

(** ** The [/sort] handler

    [sortHandler] as [app/main.go] has it, with tracing.  The variant of
    the repository without tracing has the same gates, collectors and
    sort; it is the case [tracer = false] up to its log texts and the
    size of its dataset. *)

Module Handler.
Import Strconv.

(** [Response], with its JSON tags: [duration] is [omitempty]. *)
Record Response := {
  RequestID : string;
  Status : string;
  Duration : string;
}.

(** A JSON object as its members in order. *)
Definition JSON : Type := list (string * string).

Definition Response_json (r : Response) : JSON :=
  [("requestID"%string, RequestID r); ("status"%string, Status r)]
  ++ (if decide (Duration r = EmptyString) then []
      else [("duration"%string, Duration r)]).

(** [http.ResponseWriter]: the header map, the status line once it is
    written, and the documents encoded into the body. *)
Record ResponseWriter := {
  header : gmap string string;
  statusCode : option Z;
  body : list JSON;
}.

Definition newResponseWriter : ResponseWriter :=
  {| header := ∅; statusCode := None; body := [] |}.

Definition StatusOK : Z := 200.
Definition StatusBadRequest : Z := 400.
Definition StatusMethodNotAllowed : Z := 405.
Definition MethodGet : string := "GET".

(** Values of log fields and span attributes.  [duration.Seconds()] is
    a [float64]; the duration is carried as its nanoseconds. *)
Inductive Value :=
| VString (s : string)
| VInt (n : Z)
| VSeconds (nanos : Z).

Inductive Level := InfoLevel | WarnLevel.

Record Entry := {
  level : Level;
  msg : string;
  fields : list (string * Value);
}.

(** What the tracer is told about a span, the span named by the name it
    was started with. *)
Inductive SpanOp :=
| SpanStart (name : string)
| SpanSetAttributes (span key : string) (v : Value)
| SpanAddEvent (span name : string) (attrs : list (string * Value))
| SpanEnd (span : string).

(** The Prometheus collectors: two counters, the gauge with the values
    it was set to (latest first) and the histogram with its
    observations (latest first, in nanoseconds). *)
Record Metrics := {
  sortRequests : Z;
  errorCounter : Z;
  arraySize : list Z;
  sortDuration : list Z;
}.

Record Request := { Method : string }.

(** The two clock readings of a request: [time.Now()] when the id is
    made, in nanoseconds since the epoch, and [time.Since(startTime)]
    around the sort. *)
Record Clock := { arrival : Z; elapsed : Z }.

(** [time.Now().UnixNano()], an [int64]. *)
Definition UnixNano (clk : Clock) : Z := wrap64 (arrival clk).

Section WithRuntime.
Context `{RT : GoRuntime}.

(** Everything the handler can touch: the package-level collectors,
    logger and tracer (is [tracer != nil]?), the global random source,
    and the writer of the request at hand. *)
Record World := {
  metrics : Metrics;
  logs : list Entry;
  tracer : bool;
  spans : list SpanOp;
  rng : RngState;
  writer : ResponseWriter;
}.

Definition with_metrics (f : Metrics → Metrics) (w : World) : World :=
  {| metrics := f (metrics w); logs := logs w; tracer := tracer w;
     spans := spans w; rng := rng w; writer := writer w |}.
Definition with_logs (f : list Entry → list Entry) (w : World) : World :=
  {| metrics := metrics w; logs := f (logs w); tracer := tracer w;
     spans := spans w; rng := rng w; writer := writer w |}.
Definition with_spans (f : list SpanOp → list SpanOp) (w : World) : World :=
  {| metrics := metrics w; logs := logs w; tracer := tracer w;
     spans := f (spans w); rng := rng w; writer := writer w |}.
Definition with_rng (s : RngState) (w : World) : World :=
  {| metrics := metrics w; logs := logs w; tracer := tracer w;
     spans := spans w; rng := s; writer := writer w |}.
Definition with_writer (f : ResponseWriter → ResponseWriter) (w : World) : World :=
  {| metrics := metrics w; logs := logs w; tracer := tracer w;
     spans := spans w; rng := rng w; writer := f (writer w) |}.

(** Statements of the handler: a state transformer that may panic. *)
Definition Stmt (A : Type) : Type := World → option (A * World).

Definition ret {A} (a : A) : Stmt A := λ w, Some (a, w).
Definition bind {A B} (m : Stmt A) (k : A → Stmt B) : Stmt B :=
  λ w, match m w with Some (a, w') => k a w' | None => None end.
Definition panic {A} : Stmt A := λ _, None.
Definition update (f : World → World) : Stmt unit := λ w, Some ((), f w).

Notation "x <- m ;; k" := (bind m (λ x, k))
  (at level 100, m at next level, right associativity).
Notation "m ;;; k" := (bind m (λ _, k))
  (at level 100, right associativity).

(** The collectors. *)
Definition Counter_Inc_sortRequests : Stmt unit :=
  update (with_metrics (λ m,
    {| sortRequests := sortRequests m + 1; errorCounter := errorCounter m;
       arraySize := arraySize m; sortDuration := sortDuration m |})).
Definition Counter_Inc_errorCounter : Stmt unit :=
  update (with_metrics (λ m,
    {| sortRequests := sortRequests m; errorCounter := errorCounter m + 1;
       arraySize := arraySize m; sortDuration := sortDuration m |})).
Definition Gauge_Set_arraySize (v : Z) : Stmt unit :=
  update (with_metrics (λ m,
    {| sortRequests := sortRequests m; errorCounter := errorCounter m;
       arraySize := v :: arraySize m; sortDuration := sortDuration m |})).
Definition Histogram_Observe_sortDuration (nanos : Z) : Stmt unit :=
  update (with_metrics (λ m,
    {| sortRequests := sortRequests m; errorCounter := errorCounter m;
       arraySize := arraySize m; sortDuration := nanos :: sortDuration m |})).

(** The logger [log.WithField("requestID", requestID)] and its entries,
    oldest first. *)
Definition logger_log (requestID : string) (lv : Level)
    (extra : list (string * Value)) (m : string) : Stmt unit :=
  update (with_logs (λ l,
    l ++ [{| level := lv; msg := m;
             fields := ("requestID"%string, VString requestID) :: extra |}])).

(** The tracer: [tracer.Start] is reached only under [tracer != nil],
    and a span variable is [nil] exactly when no span was started. *)
Definition tracer_Start (name : string) : Stmt (option string) :=
  λ w, if tracer w
       then Some (Some name, with_spans (λ l, l ++ [SpanStart name]) w)
       else Some (None, w).

Definition on_span (span : option string) (op : string → SpanOp) : Stmt unit :=
  match span with
  | Some sp => update (with_spans (λ l, l ++ [op sp]))
  | None => ret ()
  end.

(** The writer. *)
Definition Header_Set (k v : string) : Stmt unit :=
  update (with_writer (λ rw,
    {| header := <[k := v]> (header rw); statusCode := statusCode rw;
       body := body rw |})).

(** Only the first [WriteHeader] of a response counts. *)
Definition WriteHeader (code : Z) : Stmt unit :=
  update (with_writer (λ rw,
    {| header := header rw;
       statusCode := match statusCode rw with
                     | None => Some code
                     | Some c => Some c
                     end;
       body := body rw |})).

(** [json.NewEncoder(w).Encode(v)]; a write before any [WriteHeader]
    sends [200]. *)
Definition Encode (v : Response) : Stmt unit :=
  update (with_writer (λ rw,
    {| header := header rw;
       statusCode := match statusCode rw with
                     | None => Some StatusOK
                     | Some c => Some c
                     end;
       body := body rw ++ [Response_json v] |})).

(** [numbers[:k]]; panics past the end of the slice. *)
Definition slice_prefix (k : nat) (xs : list Z) : Stmt (list Z) :=
  if decide (k ≤ length xs)%nat then ret (take k xs) else panic.

Definition call_generateRandomNumbers (size : Z) : Stmt (list Z) :=
  λ w, match Generator.generateRandomNumbers size (rng w) with
       | Some (numbers, s) => Some (numbers, with_rng s w)
       | None => None
       end.

(** The answer to a request that is turned away: the two rejecting
    branches of [sortHandler] differ in the code and the texts only. *)
Definition reject (span : option string) (requestID : string)
    (code : Z) (warning error : string) : Stmt unit :=
  Header_Set "Content-Type" "application/json" ;;;
  logger_log requestID WarnLevel [("status"%string, VInt code)] warning ;;;
  on_span span (λ sp, SpanSetAttributes sp "http.status_code" (VInt code)) ;;;
  on_span span (λ sp, SpanSetAttributes sp "error" (VString error)) ;;;
  WriteHeader code ;;;
  Encode {| RequestID := requestID; Status := "error";
            Duration := EmptyString |} ;;;
  Counter_Inc_errorCounter.

Definition size : Z := 20000.

(** The part of [sortHandler] after the two gates. *)
Definition accept (span : option string) (requestID : string)
    (clk : Clock) : Stmt unit :=
  Gauge_Set_arraySize size ;;;
  on_span span (λ sp, SpanSetAttributes sp "array.size" (VInt size)) ;;;
  genSpan <- tracer_Start "generate-random-numbers" ;;
  numbers <- call_generateRandomNumbers size ;;
  on_span genSpan SpanEnd ;;;
  first10 <- slice_prefix 10 numbers ;;
  logger_log requestID InfoLevel []
    ("Unsorted (first 10): " +:+ formatSlice first10) ;;;
  on_span span (λ sp, SpanAddEvent sp "unsorted-array-ready"
    [("first_10_elements"%string, VString (formatSlice first10))]) ;;;
  sortSpan <- tracer_Start "parallel-merge-sort" ;;
  let sortedNumbers := Sort.parallelMergeSort numbers in
  let duration := elapsed clk in
  on_span sortSpan (λ sp,
    SpanSetAttributes sp "duration_seconds" (VSeconds duration)) ;;;
  on_span sortSpan SpanEnd ;;;
  Histogram_Observe_sortDuration duration ;;;
  sorted10 <- slice_prefix 10 sortedNumbers ;;
  logger_log requestID InfoLevel []
    ("Sorted (first 10): " +:+ formatSlice sorted10) ;;;
  logger_log requestID InfoLevel []
    ("Finished sorting in " +:+ Duration_String duration) ;;;
  on_span span (λ sp, SpanAddEvent sp "sorted-array-ready"
    [("first_10_elements"%string, VString (formatSlice sorted10));
     ("duration"%string, VString (Duration_String duration))]) ;;;
  Header_Set "Content-Type" "application/json" ;;;
  logger_log requestID InfoLevel [("status"%string, VInt StatusOK)]
    "Request completed" ;;;
  on_span span (λ sp,
    SpanSetAttributes sp "http.status_code" (VInt StatusOK)) ;;;
  WriteHeader StatusOK ;;;
  Encode {| RequestID := requestID; Status := "success";
            Duration := Duration_String duration |}.

(** [sortHandler]; the deferred [span.End()] runs when it returns. *)
Definition sortHandler (r : Request) (clk : Clock) : Stmt unit :=
  span <- tracer_Start "sort-handler" ;;
  (let requestID := formatInt (UnixNano clk) in
   logger_log requestID InfoLevel [] "Received sort request" ;;;
   on_span span (λ sp,
     SpanSetAttributes sp "request.id" (VString requestID)) ;;;
   Counter_Inc_sortRequests ;;;
   if negb (String.eqb (Method r) MethodGet) then
     reject span requestID StatusMethodNotAllowed
       "Method not allowed" "method not allowed"
   else
     let requestIDInt := (ParseInt requestID).1 in
     if Z.rem requestIDInt 2 =? 0 then
       reject span requestID StatusBadRequest
         "Request is even" "request id is even"
     else
       accept span requestID clk) ;;;
  on_span span SpanEnd.

(** The server calls the handler with the writer of a new response. *)
Definition serve (r : Request) (clk : Clock) (w : World) : option World :=
  match sortHandler r clk (with_writer (λ _, newResponseWriter) w) with
  | Some (_, w') => Some w'
  | None => None
  end.

End WithRuntime.
End Handler.

(** ** The final worlds of the handler, written out

    What [serve] is shown to leave behind, for a request that is turned
    away and for one that is sorted. *)

Module HandlerSpec.
Import Strconv Handler.
Section WithRuntime.
Context `{RT : GoRuntime}.

Definition rejected (code : Z) (warning error : string) (clk : Clock)
    (w : World) : World :=
  let id := formatInt (UnixNano clk) in
  {| metrics :=
       {| sortRequests := sortRequests (metrics w) + 1;
          errorCounter := errorCounter (metrics w) + 1;
          arraySize := arraySize (metrics w);
          sortDuration := sortDuration (metrics w) |};
     logs := logs w ++
       [ {| level := InfoLevel; msg := "Received sort request";
            fields := [("requestID"%string, VString id)] |};
         {| level := WarnLevel; msg := warning;
            fields := [("requestID"%string, VString id);
                       ("status"%string, VInt code)] |} ];
     tracer := tracer w;
     spans := spans w ++
       (if tracer w then
          [ SpanStart "sort-handler";
            SpanSetAttributes "sort-handler" "request.id" (VString id);
            SpanSetAttributes "sort-handler" "http.status_code" (VInt code);
            SpanSetAttributes "sort-handler" "error" (VString error);
            SpanEnd "sort-handler" ]
        else []);
     rng := rng w;
     writer :=
       {| header := <["Content-Type"%string := "application/json"%string]> ∅;
          statusCode := Some code;
          body := [[("requestID"%string, id); ("status"%string, "error"%string)]] |} |}.

Definition accepted_with (numbers : list Z) (s' : RngState) (clk : Clock)
    (w : World) : World :=
  let id := formatInt (UnixNano clk) in
  let sortedNumbers := Sort.parallelMergeSort numbers in
  let d := elapsed clk in
  {| metrics :=
       {| sortRequests := sortRequests (metrics w) + 1;
          errorCounter := errorCounter (metrics w);
          arraySize := size :: arraySize (metrics w);
          sortDuration := d :: sortDuration (metrics w) |};
     logs := logs w ++
       [ {| level := InfoLevel; msg := "Received sort request";
            fields := [("requestID"%string, VString id)] |};
         {| level := InfoLevel;
            msg := "Unsorted (first 10): " +:+ formatSlice (take 10 numbers);
            fields := [("requestID"%string, VString id)] |};
         {| level := InfoLevel;
            msg := "Sorted (first 10): "
                   +:+ formatSlice (take 10 sortedNumbers);
            fields := [("requestID"%string, VString id)] |};
         {| level := InfoLevel;
            msg := "Finished sorting in " +:+ Duration_String d;
            fields := [("requestID"%string, VString id)] |};
         {| level := InfoLevel; msg := "Request completed";
            fields := [("requestID"%string, VString id);
                       ("status"%string, VInt StatusOK)] |} ];
     tracer := tracer w;
     spans := spans w ++
       (if tracer w then
          [ SpanStart "sort-handler";
            SpanSetAttributes "sort-handler" "request.id" (VString id);
            SpanSetAttributes "sort-handler" "array.size" (VInt size);
            SpanStart "generate-random-numbers";
            SpanEnd "generate-random-numbers";
            SpanAddEvent "sort-handler" "unsorted-array-ready"
              [("first_10_elements"%string,
                VString (formatSlice (take 10 numbers)))];
            SpanStart "parallel-merge-sort";
            SpanSetAttributes "parallel-merge-sort" "duration_seconds"
              (VSeconds d);
            SpanEnd "parallel-merge-sort";
            SpanAddEvent "sort-handler" "sorted-array-ready"
              [("first_10_elements"%string,
                VString (formatSlice (take 10 sortedNumbers)));
               ("duration"%string, VString (Duration_String d))];
            SpanSetAttributes "sort-handler" "http.status_code"
              (VInt StatusOK);
            SpanEnd "sort-handler" ]
        else []);
     rng := s';
     writer :=
       {| header := <["Content-Type"%string := "application/json"%string]> ∅;
          statusCode := Some StatusOK;
          body := [Response_json {| RequestID := id; Status := "success";
                                    Duration := Duration_String d |}] |} |}.

Definition accepted (clk : Clock) (w : World) : World :=
  accepted_with (Generator.draws (Z.to_nat size) (rng w)).1
                (Generator.draws (Z.to_nat size) (rng w)).2 clk w.

(** Did the handler answer [200]? *)
Definition served_OK (r : Request) (clk : Clock) (w : World) : bool :=
  match serve r clk w with
  | Some w' => bool_decide (statusCode (writer w') = Some StatusOK)
  | None => false
  end.

(** The span an operation of the tracer is about. *)
Definition span_of (op : SpanOp) : string :=
  match op with
  | SpanStart name => name
  | SpanSetAttributes span _ _ => span
  | SpanAddEvent span _ _ => span
  | SpanEnd span => span
  end.

End WithRuntime.
End HandlerSpec.

(** ** A runtime to run the model on

    A linear congruential generator for the random source and the
    nanosecond count for the text of a duration. *)

Definition testRuntime : GoRuntime := {|
  RngState := Z;
  rand_Intn := λ n s,
    (s mod n, (s * 6364136223846793005 + 1442695040888963407) mod 2 ^ 64);
  Duration_String := λ d, (Strconv.formatInt d +:+ "ns")%string;
|}.

(** A server that has just started, with tracing on. *)
Definition world0 : Handler.World (RT := testRuntime) := {|
  Handler.metrics := {| Handler.sortRequests := 0; Handler.errorCounter := 0;
                        Handler.arraySize := []; Handler.sortDuration := [] |};
  Handler.logs := [];
  Handler.tracer := true;
  Handler.spans := [];
  Handler.rng := (42%Z : @RngState testRuntime);
  Handler.writer := Handler.newResponseWriter;
|}.

Definition GET : Handler.Request := {| Handler.Method := "GET" |}.
Definition POST : Handler.Request := {| Handler.Method := "POST" |}.

(** The clock of a request that arrives at an odd nanosecond, and of
    one that arrives at an even one. *)
Definition odd_clock : Handler.Clock :=
  {| Handler.arrival := 1700000000000000001; Handler.elapsed := 1500 |}.
Definition even_clock : Handler.Clock :=
  {| Handler.arrival := 1700000000000000002; Handler.elapsed := 1500 |}.

(** A slice of 250000 zeros. *)
Definition zeros250000 : list Z := replicate (Z.to_nat 250000) 0.

(** ** The blocks of a run

    The slices a run of [parallelMergeSort] leaves whole, from left to
    right: the ones it returned as they were and the ones it handed to
    [mergeSort]. *)

Module SortRun.
Import Sort.

Fixpoint blocks (t : Run) : list (list Z) :=
  match t with
  | Returned items => [items]
  | Sequential items => [items]
  | ForkJoin _ a b => blocks a ++ blocks b
  end.

End SortRun.

(** ** The health check and the server's calls *)

Module Server.
Import Strconv Handler.
Section WithRuntime.
Context `{RT : GoRuntime}.

Local Notation "m ;;; k" := (bind m (λ _, k))
  (at level 100, right associativity).

(** [json.NewEncoder(w).Encode(m)] for a [map[string]string], given as
    its members. *)
Definition Encode_map (doc : JSON) : Stmt unit :=
  update (with_writer (λ rw,
    {| header := header rw;
       statusCode := match statusCode rw with
                     | None => Some StatusOK
                     | Some c => Some c
                     end;
       body := body rw ++ [doc] |})).

(** [healthHandler]; it logs on the package logger, without fields, and
    does not look at the request. *)
Definition healthHandler (r : Request) : Stmt unit :=
  update (with_logs (λ l,
    l ++ [{| level := InfoLevel; msg := "Health check request received";
             fields := [] |}])) ;;;
  Header_Set "Content-Type" "application/json" ;;;
  WriteHeader StatusOK ;;;
  Encode_map [("status"%string, "healthy"%string)].

(** The two handlers [main] registers from this file, as the server
    calls them: each with the writer of a new response. *)
Inductive Call :=
| SortCall (r : Request) (clk : Clock)
| HealthCall (r : Request).

Definition handle (c : Call) (w : World) : option World :=
  match c with
  | SortCall r clk => serve r clk w
  | HealthCall r =>
      match healthHandler r (with_writer (λ _, newResponseWriter) w) with
      | Some (_, w') => Some w'
      | None => None
      end
  end.

(** The world a health check leaves, written out. *)
Definition health_world (w : World) : World :=
  {| metrics := metrics w;
     logs := logs w ++
       [{| level := InfoLevel; msg := "Health check request received";
           fields := [] |}];
     tracer := tracer w;
     spans := spans w;
     rng := rng w;
     writer :=
       {| header := <["Content-Type"%string := "application/json"%string]> ∅;
          statusCode := Some StatusOK;
          body := [[("status"%string, "healthy"%string)]] |} |}.

(** Calls handled one after the other. *)
Fixpoint handle_all (cs : list Call) (w : World) : option World :=
  match cs with
  | [] => Some w
  | c :: cs' =>
      match handle c w with
      | Some w' => handle_all cs' w'
      | None => None
      end
  end.

(** The calls of a list that go to [/sort]. *)
Fixpoint sort_calls (cs : list Call) : nat :=
  match cs with
  | [] => 0
  | SortCall _ _ :: cs' => S (sort_calls cs')
  | HealthCall _ :: cs' => sort_calls cs'
  end.

(** The world with [tracer] set or [nil]. *)
Definition set_tracer (b : bool) (w : World) : World :=
  {| metrics := metrics w; logs := logs w; tracer := b;
     spans := spans w; rng := rng w; writer := writer w |}.

End WithRuntime.

(** Are the operations on spans well bracketed?  [open] are the spans
    started and not ended: attributes and events go to open spans only,
    a span is ended only while open, and none is open at the end. *)
Fixpoint spans_ok (open : list string) (ops : list SpanOp) : bool :=
  match ops with
  | [] => bool_decide (open = [])
  | SpanStart name :: ops' => spans_ok (name :: open) ops'
  | SpanSetAttributes sp _ _ :: ops' =>
      bool_decide (sp ∈ open) && spans_ok open ops'
  | SpanAddEvent sp _ _ :: ops' =>
      bool_decide (sp ∈ open) && spans_ok open ops'
  | SpanEnd sp :: ops' =>
      bool_decide (sp ∈ open)
      && spans_ok (filter (λ name, name ≠ sp) open) ops'
  end.

End Server.

(** ** The variant without tracing

    The second [main.go] of [app]: the same service without the tracer
    and the health check, with a dataset of 20000000 numbers below
    20000000, a logger at debug level and other levels for the lines
    with numbers.  Its [merge], [mergeSort] and [parallelMergeSort] are
    those of [Sort], letter for letter. *)

Module Plain.
Import Strconv.

Inductive Level := DebugLevel | InfoLevel | WarnLevel.

Record Entry := {
  level : Level;
  msg : string;
  fields : list (string * Handler.Value);
}.

Section WithRuntime.
Context `{RT : GoRuntime}.

(** [for i := 0; i < size; i++ { numbers[i] = rand.Intn(20000000) }] *)
Equations? generate_loop (size i : Z) (numbers : list Z) (s : RngState)
  : list Z * RngState
  by wf (Z.to_nat (size - i)) lt :=
  generate_loop size i numbers s with inspect (i <? size) := {
    | exist _ true Hi =>
        generate_loop size (i + 1)
          (<[Z.to_nat i := (rand_Intn 20000000 s).1]> numbers)
          (rand_Intn 20000000 s).2;
    | exist _ false _ => (numbers, s) }.
Proof. apply Z.ltb_lt in Hi. lia. Qed.

(** [generateRandomNumbers]; [None] where [make([]int, size)] panics. *)
Definition generateRandomNumbers (size : Z) (s : RngState)
  : option (list Z * RngState) :=
  if make_panics size then None
  else Some (generate_loop size 0 (replicate (Z.to_nat size) 0) s).

(** [n] draws below 20000000, in order. *)
Fixpoint draws (n : nat) (s : RngState) : list Z * RngState :=
  match n with
  | O => ([], s)
  | S n' =>
      let '(rest, s') := draws n' (rand_Intn 20000000 s).2 in
      ((rand_Intn 20000000 s).1 :: rest, s')
  end.

Record World := {
  metrics : Handler.Metrics;
  logs : list Entry;
  rng : RngState;
  writer : Handler.ResponseWriter;
}.

Definition Stmt (A : Type) : Type := World → option (A * World).

Definition ret {A} (a : A) : Stmt A := λ w, Some (a, w).
Definition bind {A B} (m : Stmt A) (k : A → Stmt B) : Stmt B :=
  λ w, match m w with Some (a, w') => k a w' | None => None end.
Definition panic {A} : Stmt A := λ _, None.

Local Notation "x <- m ;; k" := (bind m (λ x, k))
  (at level 100, m at next level, right associativity).
Local Notation "m ;;; k" := (bind m (λ _, k))
  (at level 100, right associativity).

Definition on_metrics (f : Handler.Metrics → Handler.Metrics) : Stmt unit :=
  λ w, Some ((), {| metrics := f (metrics w); logs := logs w;
                    rng := rng w; writer := writer w |}).
Definition on_writer
    (f : Handler.ResponseWriter → Handler.ResponseWriter) : Stmt unit :=
  λ w, Some ((), {| metrics := metrics w; logs := logs w;
                    rng := rng w; writer := f (writer w) |}).

Definition Counter_Inc_sortRequests : Stmt unit :=
  on_metrics (λ m,
    {| Handler.sortRequests := Handler.sortRequests m + 1;
       Handler.errorCounter := Handler.errorCounter m;
       Handler.arraySize := Handler.arraySize m;
       Handler.sortDuration := Handler.sortDuration m |}).
Definition Counter_Inc_errorCounter : Stmt unit :=
  on_metrics (λ m,
    {| Handler.sortRequests := Handler.sortRequests m;
       Handler.errorCounter := Handler.errorCounter m + 1;
       Handler.arraySize := Handler.arraySize m;
       Handler.sortDuration := Handler.sortDuration m |}).
Definition Gauge_Set_arraySize (v : Z) : Stmt unit :=
  on_metrics (λ m,
    {| Handler.sortRequests := Handler.sortRequests m;
       Handler.errorCounter := Handler.errorCounter m;
       Handler.arraySize := v :: Handler.arraySize m;
       Handler.sortDuration := Handler.sortDuration m |}).
Definition Histogram_Observe_sortDuration (nanos : Z) : Stmt unit :=
  on_metrics (λ m,
    {| Handler.sortRequests := Handler.sortRequests m;
       Handler.errorCounter := Handler.errorCounter m;
       Handler.arraySize := Handler.arraySize m;
       Handler.sortDuration := nanos :: Handler.sortDuration m |}).

Definition logger_log (requestID : string) (lv : Level)
    (extra : list (string * Handler.Value)) (m : string) : Stmt unit :=
  λ w, Some ((), {| metrics := metrics w;
                    logs := logs w ++
                      [{| level := lv; msg := m;
                          fields := ("requestID"%string,
                                     Handler.VString requestID) :: extra |}];
                    rng := rng w; writer := writer w |}).

Definition Header_Set (k v : string) : Stmt unit :=
  on_writer (λ rw,
    {| Handler.header := <[k := v]> (Handler.header rw);
       Handler.statusCode := Handler.statusCode rw;
       Handler.body := Handler.body rw |}).
Definition WriteHeader (code : Z) : Stmt unit :=
  on_writer (λ rw,
    {| Handler.header := Handler.header rw;
       Handler.statusCode := match Handler.statusCode rw with
                             | None => Some code
                             | Some c => Some c
                             end;
       Handler.body := Handler.body rw |}).
Definition Encode (v : Handler.Response) : Stmt unit :=
  on_writer (λ rw,
    {| Handler.header := Handler.header rw;
       Handler.statusCode := match Handler.statusCode rw with
                             | None => Some Handler.StatusOK
                             | Some c => Some c
                             end;
       Handler.body := Handler.body rw ++ [Handler.Response_json v] |}).

Definition slice_prefix (k : nat) (xs : list Z) : Stmt (list Z) :=
  if decide (k ≤ length xs)%nat then ret (take k xs) else panic.

Definition call_generateRandomNumbers (size : Z) : Stmt (list Z) :=
  λ w, match generateRandomNumbers size (rng w) with
       | Some (numbers, s) =>
           Some (numbers, {| metrics := metrics w; logs := logs w;
                             rng := s; writer := writer w |})
       | None => None
       end.

(** The two rejecting branches, which differ in the code and the text. *)
Definition reject (requestID : string) (code : Z) (warning : string)
  : Stmt unit :=
  Header_Set "Content-Type" "application/json" ;;;
  logger_log requestID WarnLevel
    [("status"%string, Handler.VInt code)] warning ;;;
  WriteHeader code ;;;
  Encode {| Handler.RequestID := requestID; Handler.Status := "error";
            Handler.Duration := EmptyString |} ;;;
  Counter_Inc_errorCounter.

Definition size : Z := 20000000.

Definition sortHandler (r : Handler.Request) (clk : Handler.Clock)
  : Stmt unit :=
  let requestID := formatInt (Handler.UnixNano clk) in
  logger_log requestID InfoLevel [] "received request" ;;;
  Counter_Inc_sortRequests ;;;
  if negb (String.eqb (Handler.Method r) Handler.MethodGet) then
    reject requestID Handler.StatusMethodNotAllowed "Method not allowed"
  else
    let requestIDInt := (ParseInt requestID).1 in
    if Z.rem requestIDInt 2 =? 0 then
      reject requestID Handler.StatusBadRequest "Request is even"
    else
      Gauge_Set_arraySize size ;;;
      numbers <- call_generateRandomNumbers size ;;
      first10 <- slice_prefix 10 numbers ;;
      logger_log requestID DebugLevel []
        ("Unsorted (first 10): " +:+ formatSlice first10) ;;;
      let sortedNumbers := Sort.parallelMergeSort numbers in
      let duration := Handler.elapsed clk in
      Histogram_Observe_sortDuration duration ;;;
      sorted10 <- slice_prefix 10 sortedNumbers ;;
      logger_log requestID WarnLevel []
        ("Sorted (first 10): " +:+ formatSlice sorted10) ;;;
      logger_log requestID InfoLevel []
        ("Finished sorting in " +:+ Duration_String duration) ;;;
      Header_Set "Content-Type" "application/json" ;;;
      logger_log requestID InfoLevel
        [("status"%string, Handler.VInt Handler.StatusOK)]
        "Request completed" ;;;
      WriteHeader Handler.StatusOK ;;;
      Encode {| Handler.RequestID := requestID;
                Handler.Status := "success";
                Handler.Duration := Duration_String duration |}.

(** The server calls the handler with the writer of a new response. *)
Definition serve (r : Handler.Request) (clk : Handler.Clock) (w : World)
  : option World :=
  match sortHandler r clk
          {| metrics := metrics w; logs := logs w; rng := rng w;
             writer := Handler.newResponseWriter |} with
  | Some (_, w') => Some w'
  | None => None
  end.

End WithRuntime.
End Plain.

(** The final worlds of the variant without tracing, written out. *)

Module PlainSpec.
Import Strconv Plain.
Section WithRuntime.
Context `{RT : GoRuntime}.

Definition rejected (code : Z) (warning : string) (clk : Handler.Clock)
    (w : World) : World :=
  let id := formatInt (Handler.UnixNano clk) in
  {| metrics :=
       {| Handler.sortRequests := Handler.sortRequests (metrics w) + 1;
          Handler.errorCounter := Handler.errorCounter (metrics w) + 1;
          Handler.arraySize := Handler.arraySize (metrics w);
          Handler.sortDuration := Handler.sortDuration (metrics w) |};
     logs := logs w ++
       [ {| level := InfoLevel; msg := "received request";
            fields := [("requestID"%string, Handler.VString id)] |};
         {| level := WarnLevel; msg := warning;
            fields := [("requestID"%string, Handler.VString id);
                       ("status"%string, Handler.VInt code)] |} ];
     rng := rng w;
     writer :=
       {| Handler.header :=
            <["Content-Type"%string := "application/json"%string]> ∅;
          Handler.statusCode := Some code;
          Handler.body :=
            [[("requestID"%string, id);
              ("status"%string, "error"%string)]] |} |}.

Definition accepted_with (numbers : list Z) (s' : RngState)
    (clk : Handler.Clock) (w : World) : World :=
  let id := formatInt (Handler.UnixNano clk) in
  let sortedNumbers := Sort.parallelMergeSort numbers in
  let d := Handler.elapsed clk in
  {| metrics :=
       {| Handler.sortRequests := Handler.sortRequests (metrics w) + 1;
          Handler.errorCounter := Handler.errorCounter (metrics w);
          Handler.arraySize := size :: Handler.arraySize (metrics w);
          Handler.sortDuration := d :: Handler.sortDuration (metrics w) |};
     logs := logs w ++
       [ {| level := InfoLevel; msg := "received request";
            fields := [("requestID"%string, Handler.VString id)] |};
         {| level := DebugLevel;
            msg := "Unsorted (first 10): " +:+ formatSlice (take 10 numbers);
            fields := [("requestID"%string, Handler.VString id)] |};
         {| level := WarnLevel;
            msg := "Sorted (first 10): "
                   +:+ formatSlice (take 10 sortedNumbers);
            fields := [("requestID"%string, Handler.VString id)] |};
         {| level := InfoLevel;
            msg := "Finished sorting in " +:+ Duration_String d;
            fields := [("requestID"%string, Handler.VString id)] |};
         {| level := InfoLevel; msg := "Request completed";
            fields := [("requestID"%string, Handler.VString id);
                       ("status"%string, Handler.VInt Handler.StatusOK)] |} ];
     rng := s';
     writer :=
       {| Handler.header :=
            <["Content-Type"%string := "application/json"%string]> ∅;
          Handler.statusCode := Some Handler.StatusOK;
          Handler.body :=
            [Handler.Response_json
               {| Handler.RequestID := id; Handler.Status := "success";
                  Handler.Duration := Duration_String d |}] |} |}.

Definition accepted (clk : Handler.Clock) (w : World) : World :=
  accepted_with (draws (Z.to_nat size) (rng w)).1
                (draws (Z.to_nat size) (rng w)).2 clk w.

End WithRuntime.
End PlainSpec.

(** A server of the variant without tracing that has just started. *)
Definition plain_world0 : Plain.World (RT := testRuntime) := {|
  Plain.metrics := {| Handler.sortRequests := 0; Handler.errorCounter := 0;
                      Handler.arraySize := []; Handler.sortDuration := [] |};
  Plain.logs := [];
  Plain.rng := (42%Z : @RngState testRuntime);
  Plain.writer := Handler.newResponseWriter;
|}.

(** * Properties *)

(** ** The sort *)

Module SortFacts.
Import Sort.

(** The loops and recursions, one step at a time. *)
Lemma merge_loop_unfold l r i j result :
  merge_loop l r i j result =
  if (i <? length l)%nat && (j <? length r)%nat then
    if nth i l 0 <=? nth j r 0
    then merge_loop l r (S i) j (result ++ [nth i l 0])
    else merge_loop l r i (S j) (result ++ [nth j r 0])
  else (i, j, result).
Proof.
  funelim (merge_loop l r i j result);
    rewrite ?Hc, ?e, ?Heq; reflexivity.
Qed.

Lemma mergeSort_unfold items :
  mergeSort items =
  if len items <=? 1 then items
  else merge (mergeSort (slice_to (middle items) items))
             (mergeSort (slice_from (middle items) items)).
Proof.
  funelim (mergeSort items); rewrite ?Hn, ?e; reflexivity.
Qed.

Lemma parallelMergeSort_run_unfold items :
  parallelMergeSort_run items =
  if len items <=? 1 then (items, Returned items)
  else if len items <=? threshold then (mergeSort items, Sequential items)
  else (merge (parallelMergeSort_run (slice_to (middle items) items)).1
              (parallelMergeSort_run (slice_from (middle items) items)).1,
        ForkJoin (middle items)
              (parallelMergeSort_run (slice_to (middle items) items)).2
              (parallelMergeSort_run (slice_from (middle items) items)).2).
Proof.
  funelim (parallelMergeSort_run items);
    rewrite ?Hn, ?e, ?Heq; reflexivity.
Qed.

(** The slices the sorts take are within bounds and split the input. *)
Lemma middle_in_bounds items : 0 <= middle items <= len items.
Proof.
  unfold middle, len.
  pose proof (Z.quot_pos (Z.of_nat (length items)) 2).
  pose proof (Z.quot_le_upper_bound
                (Z.of_nat (length items)) 2 (Z.of_nat (length items))).
  lia.
Qed.

Lemma slices_app m items : slice_to m items ++ slice_from m items = items.
Proof. apply take_drop. Qed.

Lemma len_slice_to m items :
  0 <= m <= len items → len (slice_to m items) = m.
Proof. unfold len, slice_to. intros Hm. rewrite length_take. lia. Qed.

Lemma len_slice_from m items :
  0 <= m <= len items → len (slice_from m items) = len items - m.
Proof. unfold len, slice_from. intros Hm. rewrite length_drop. lia. Qed.

(** *** [merge] is the merge of two lists *)

Lemma drop_nth (l : list Z) i :
  (i < length l)%nat → drop i l = nth i l 0 :: drop (S i) l.
Proof.
  intros Hi. apply drop_S.
  destruct (nth_lookup_or_length l i 0) as [Hl | Hl]; [exact Hl | lia].
Qed.

(** Invariant of the loop: what is in [result], then the merge of what
    [i] and [j] have not passed yet. *)
Lemma merge_loop_spec l r i j result :
  ∃ i' j' result',
    merge_loop l r i j result = (i', j', result') ∧
    (result' ++ drop i' l) ++ drop j' r
    = result ++ list_merge Z.le (drop i l) (drop j r).
Proof.
  funelim (merge_loop l r i j result).
  - exists i, j, result. split; [reflexivity|].
    rewrite <- app_assoc. f_equal.
    destruct (proj1 (andb_false_iff _ _) e) as [Hi | Hj].
    + apply Nat.ltb_ge in Hi. rewrite (drop_ge l) by exact Hi.
      symmetry. apply list_merge_nil_l.
    + apply Nat.ltb_ge in Hj. rewrite (drop_ge r) by exact Hj.
      rewrite app_nil_r. symmetry. apply list_merge_nil_r.
  - destruct H as (i' & j' & result' & Hloop & Hinv).
    exists i', j', result'. split; [exact Hloop|].
    destruct (andb_prop _ _ Hc) as [Hi Hj].
    apply Nat.ltb_lt in Hi. apply Nat.ltb_lt in Hj.
    rewrite Hinv, (drop_nth l i), (drop_nth r j) by assumption.
    rewrite list_merge_cons, decide_True by (apply Z.leb_le; assumption).
    rewrite <- app_assoc. reflexivity.
  - destruct H as (i' & j' & result' & Hloop & Hinv).
    exists i', j', result'. split; [exact Hloop|].
    destruct (andb_prop _ _ Hc) as [Hi Hj].
    apply Nat.ltb_lt in Hi. apply Nat.ltb_lt in Hj.
    rewrite Hinv, (drop_nth l i), (drop_nth r j) by assumption.
    rewrite list_merge_cons, decide_False by (apply Z.leb_gt in Heq; lia).
    rewrite <- app_assoc. reflexivity.
Qed.

Lemma merge_list_merge l r : merge l r = list_merge Z.le l r.
Proof.
  unfold merge.
  destruct (merge_loop_spec l r 0 0 []) as (i & j & result & -> & Hinv).
  exact Hinv.
Qed.

Lemma merge_Sorted l r :
  Sorted Z.le l → Sorted Z.le r → Sorted Z.le (merge l r).
Proof. rewrite merge_list_merge. apply Sorted_list_merge; apply _. Qed.

Lemma merge_perm l r : merge l r ≡ₚ l ++ r.
Proof. rewrite merge_list_merge. apply merge_Permutation. Qed.

(** Ties go to the left operand, so merging the two parts of a sorted
    list gives the list back. *)
Lemma list_merge_app (l r : list Z) :
  (∀ x y, x ∈ l → y ∈ r → x <= y) → list_merge Z.le l r = l ++ r.
Proof.
  induction l as [|x l IH]; intros Hle.
  - apply list_merge_nil_l.
  - destruct r as [|y r].
    + rewrite app_nil_r. apply list_merge_nil_r.
    + rewrite list_merge_cons, decide_True
        by (apply Hle; [apply list_elem_of_here | apply list_elem_of_here]).
      simpl. f_equal. apply IH.
      intros a b Ha Hb. apply Hle; [apply list_elem_of_further|]; assumption.
Qed.

(** *** [mergeSort] *)

Lemma mergeSort_Sorted items : Sorted Z.le (mergeSort items).
Proof.
  funelim (mergeSort items).
  - pose proof (proj1 (Z.leb_le _ _) e) as Hn. unfold len in Hn.
    destruct items as [|x [|y items]]; simpl in Hn;
      [constructor | repeat constructor | lia].
  - apply merge_Sorted; assumption.
Qed.

Lemma mergeSort_Permutation items : mergeSort items ≡ₚ items.
Proof.
  funelim (mergeSort items).
  - reflexivity.
  - rewrite merge_perm, H, H0. rewrite slices_app. reflexivity.
Qed.

Lemma mergeSort_StronglySorted items :
  StronglySorted Z.le items → mergeSort items = items.
Proof.
  funelim (mergeSort items); intros Hs.
  - reflexivity.
  - rewrite <- (slices_app (middle items) items) in Hs.
    apply StronglySorted_app in Hs as (Hlr & Hl & Hr).
    rewrite H, H0 by assumption.
    rewrite merge_list_merge, list_merge_app by exact Hlr.
    apply slices_app.
Qed.

(** *** [parallelMergeSort] *)

Lemma parallelMergeSort_mergeSort items :
  parallelMergeSort items = mergeSort items.
Proof.
  unfold parallelMergeSort.
  funelim (parallelMergeSort_run items); simpl.
  - rewrite mergeSort_unfold, e. reflexivity.
  - reflexivity.
  - rewrite H, H0, (mergeSort_unfold items), Hn. reflexivity.
Qed.


(** The first scenario of the specification, on both paths. *)
Example sort_5_3_4_1_2 :
  mergeSort [5; 3; 4; 1; 2] = [1; 2; 3; 4; 5] ∧
  parallelMergeSort [5; 3; 4; 1; 2] = [1; 2; 3; 4; 5].
Proof. split; reflexivity. Qed.

(** Ties: the merge takes from the left operand first. *)
Example merge_ties : merge [1; 3; 3] [2; 3; 4] = [1; 2; 3; 3; 3; 4].
Proof. reflexivity. Qed.

(** *** The run on 250000 elements: two levels of forks, since a half
    of 125000 elements is still above the threshold. *)

Lemma run_sequential items :
  1 < len items → len items <= threshold →
  parallelMergeSort_run items = (mergeSort items, Sequential items).
Proof.
  intros H1 HT. rewrite parallelMergeSort_run_unfold.
  rewrite (proj2 (Z.leb_gt _ _)) by lia.
  rewrite (proj2 (Z.leb_le _ _)) by lia. reflexivity.
Qed.

Lemma run_fork items :
  threshold < len items →
  parallelMergeSort_run items =
  (merge (parallelMergeSort (slice_to (middle items) items))
         (parallelMergeSort (slice_from (middle items) items)),
   ForkJoin (middle items)
     (parallelMergeSort_run (slice_to (middle items) items)).2
     (parallelMergeSort_run (slice_from (middle items) items)).2).
Proof.
  intros HT. rewrite parallelMergeSort_run_unfold at 1.
  unfold threshold in HT.
  rewrite (proj2 (Z.leb_gt _ _)) by lia.
  rewrite (proj2 (Z.leb_gt _ _)) by (unfold threshold; lia). reflexivity.
Qed.

Lemma middle_even items k : len items = 2 * k → middle items = k.
Proof.
  unfold middle. intros ->. rewrite Z.mul_comm. apply Z.quot_mul. lia.
Qed.

Lemma run_250000 items :
  len items = 250000 →
  (parallelMergeSort_run items).2 =
  ForkJoin 125000
    (ForkJoin 62500
       (Sequential (slice_to 62500 (slice_to 125000 items)))
       (Sequential (slice_from 62500 (slice_to 125000 items))))
    (ForkJoin 62500
       (Sequential (slice_to 62500 (slice_from 125000 items)))
       (Sequential (slice_from 62500 (slice_from 125000 items)))).
Proof.
  intros Hn.
  assert (Hm : middle items = 125000) by (apply middle_even; lia).
  assert (Hl : len (slice_to 125000 items) = 125000)
    by (apply len_slice_to; lia).
  assert (Hr : len (slice_from 125000 items) = 125000)
    by (rewrite len_slice_from; lia).
  assert (Hml : middle (slice_to 125000 items) = 62500)
    by (apply middle_even; lia).
  assert (Hmr : middle (slice_from 125000 items) = 62500)
    by (apply middle_even; lia).
  rewrite run_fork by (unfold threshold; lia). simpl. rewrite Hm.
  rewrite (run_fork (slice_to 125000 items)) by (unfold threshold; lia).
  rewrite (run_fork (slice_from 125000 items)) by (unfold threshold; lia).
  simpl. rewrite Hml, Hmr.
  rewrite !run_sequential;
    rewrite ?len_slice_to, ?len_slice_from; unfold threshold; try lia.
  reflexivity.
Qed.

Lemma len_zeros250000 : len zeros250000 = 250000.
Proof. unfold len, zeros250000. rewrite length_replicate. lia. Qed.

(** *** The claims about the sort *)

(** C1: for every list of integers [D], both [parallelMergeSort D] and
    [mergeSort D] are non-decreasing and are permutations of [D]. *)
Theorem sort_sorted_permutation (D : list Z) :
  (Sorted Z.le (parallelMergeSort D) ∧ parallelMergeSort D ≡ₚ D) ∧
  (Sorted Z.le (mergeSort D) ∧ mergeSort D ≡ₚ D).
Proof.
  rewrite parallelMergeSort_mergeSort.
  pose proof (mergeSort_Sorted D). pose proof (mergeSort_Permutation D).
  tauto.
Qed.

(** C2: for every list of integers [D], the parallel sort returns what
    the sequential sort returns, whatever run of forks and sequential
    calls it makes. *)
Theorem parallel_equals_sequential (D : list Z) :
  (parallelMergeSort_run D).1 = mergeSort D ∧
  parallelMergeSort D = mergeSort D.
Proof. split; apply parallelMergeSort_mergeSort. Qed.

(** C10: sorting is idempotent, and sorting a list that is already
    non-decreasing returns it unchanged. *)
Theorem mergeSort_idempotent (D : list Z) :
  mergeSort (mergeSort D) = mergeSort D ∧
  (Sorted Z.le D → mergeSort D = D).
Proof.
  split.
  - apply mergeSort_StronglySorted, Sorted_StronglySorted; [apply _|].
    apply mergeSort_Sorted.
  - intros Hs. apply mergeSort_StronglySorted, Sorted_StronglySorted;
      [apply _ | exact Hs].
Qed.

Lemma mergeSort_idempotent_witness :
  Sorted Z.le [1; 2; 2; 5] ∧ mergeSort [1; 2; 2; 5] = [1; 2; 2; 5].
Proof.
  assert (Hs : Sorted Z.le [1; 2; 2; 5])
    by (repeat constructor; lia).
  split; [exact Hs | exact (proj2 (mergeSort_idempotent [1; 2; 2; 5]) Hs)].
Defined.

Lemma run_250000_shape items :
  len items = 250000 →
  fanout_levels (parallelMergeSort_run items).2 = 2%nat ∧
  goroutines (parallelMergeSort_run items).2 = 6%nat ∧
  ¬ ∃ l r, (parallelMergeSort_run items).2
           = ForkJoin 125000 (Sequential l) (Sequential r).
Proof.
  intros Hn. rewrite (run_250000 items Hn).
  split; [reflexivity|]. split; [reflexivity|].
  intros (l & r & Heq). discriminate Heq.
Qed.

(** C3, as stated, fails on a slice of 250000 elements: the run has two
    levels of forks and six goroutines, and the two subtasks of 125000
    elements do not go to the sequential sort. *)
Lemma one_fanout_level_counterexample :
  len zeros250000 = 250000 ∧
  fanout_levels (parallelMergeSort_run zeros250000).2 ≠ 1%nat ∧
  ¬ ∃ l r, (parallelMergeSort_run zeros250000).2
           = ForkJoin 125000 (Sequential l) (Sequential r).
Proof.
  pose proof len_zeros250000 as Hn.
  destruct (run_250000_shape zeros250000 Hn) as (Hlv & _ & Hshape).
  split; [exact Hn|]. split; [|exact Hshape].
  rewrite Hlv. discriminate.
Qed.

(** C3, amended: up to the threshold [parallelMergeSort] starts no
    goroutine and returns what [mergeSort] returns (calling it when
    there are at least two elements); above the threshold it splits at
    [n / 2] into two halves that together are the input, sorts each in
    a goroutine of its own and merges the two results.  On 250000
    elements there are two levels of forks: two subtasks of 125000
    elements, each above the threshold and forking again into two
    subtasks of 62500 elements that are sorted sequentially. *)
Theorem parallelMergeSort_fanout (items : list Z) :
  (len items <= threshold →
     parallelMergeSort items = mergeSort items ∧
     goroutines (parallelMergeSort_run items).2 = 0%nat ∧
     (1 < len items →
        (parallelMergeSort_run items).2 = Sequential items)) ∧
  (threshold < len items →
     let l := slice_to (len items ÷ 2) items in
     let r := slice_from (len items ÷ 2) items in
     l ++ r = items ∧
     len l = len items ÷ 2 ∧ len r = len items - len items ÷ 2 ∧
     parallelMergeSort_run items =
       (merge (parallelMergeSort l) (parallelMergeSort r),
        ForkJoin (len items ÷ 2)
          (parallelMergeSort_run l).2 (parallelMergeSort_run r).2)) ∧
  (len items = 250000 →
     (parallelMergeSort_run items).2 =
       ForkJoin 125000
         (ForkJoin 62500
            (Sequential (slice_to 62500 (slice_to 125000 items)))
            (Sequential (slice_from 62500 (slice_to 125000 items))))
         (ForkJoin 62500
            (Sequential (slice_to 62500 (slice_from 125000 items)))
            (Sequential (slice_from 62500 (slice_from 125000 items)))) ∧
     len (slice_to 125000 items) = 125000 ∧
     len (slice_from 125000 items) = 125000 ∧
     len (slice_to 62500 (slice_to 125000 items)) = 62500 ∧
     len (slice_from 62500 (slice_to 125000 items)) = 62500 ∧
     len (slice_to 62500 (slice_from 125000 items)) = 62500 ∧
     len (slice_from 62500 (slice_from 125000 items)) = 62500 ∧
     fanout_levels (parallelMergeSort_run items).2 = 2%nat ∧
     goroutines (parallelMergeSort_run items).2 = 6%nat).
Proof.
  split; [|split].
  - intros HT. split; [apply parallelMergeSort_mergeSort|].
    destruct (Z.le_gt_cases (len items) 1) as [H1 | H1].
    + rewrite parallelMergeSort_run_unfold.
      rewrite (proj2 (Z.leb_le _ _) H1). simpl. split; [reflexivity | lia].
    + rewrite run_sequential by (lia || assumption). simpl.
      split; reflexivity.
  - intros HT. pose proof (middle_in_bounds items) as Hm.
    unfold middle in Hm. simpl.
    split; [apply slices_app|].
    split; [apply len_slice_to; exact Hm|].
    split; [apply len_slice_from; exact Hm|].
    apply run_fork. exact HT.
  - intros Hn.
    assert (Hl : len (slice_to 125000 items) = 125000)
      by (apply len_slice_to; lia).
    assert (Hr : len (slice_from 125000 items) = 125000)
      by (rewrite len_slice_from; lia).
    destruct (run_250000_shape items Hn) as (Hlv & Hgo & _).
    split; [apply run_250000; exact Hn|].
    rewrite !len_slice_to, !len_slice_from by lia.
    repeat split; try assumption; lia.
Qed.

Lemma parallelMergeSort_fanout_witness :
  (len [3; 1; 2] <= threshold ∧
   parallelMergeSort [3; 1; 2] = mergeSort [3; 1; 2] ∧
   (parallelMergeSort_run [3; 1; 2]).2 = Sequential [3; 1; 2]) ∧
  (threshold < len zeros250000 ∧ len zeros250000 = 250000 ∧
   len (slice_to (len zeros250000 ÷ 2) zeros250000)
   = len zeros250000 ÷ 2 ∧
   fanout_levels (parallelMergeSort_run zeros250000).2 = 2%nat).
Proof.
  assert (Hs : len [3; 1; 2] <= threshold) by (vm_compute; discriminate).
  assert (H1 : 1 < len [3; 1; 2]) by reflexivity.
  assert (Hn : len zeros250000 = 250000) by exact len_zeros250000.
  assert (HT : threshold < len zeros250000)
    by (rewrite Hn; reflexivity).
  split.
  - destruct (parallelMergeSort_fanout [3; 1; 2]) as (Hsmall & _ & _).
    destruct (Hsmall Hs) as (Heq & _ & Hrun).
    split; [exact Hs|]. split; [exact Heq | exact (Hrun H1)].
  - destruct (parallelMergeSort_fanout zeros250000) as (_ & Hbig & H250).
    destruct (Hbig HT) as (_ & Hlen & _).
    destruct (H250 Hn) as (_ & _ & _ & _ & _ & _ & _ & Hlv & _).
    split; [exact HT|]. split; [exact Hn|]. split; [exact Hlen | exact Hlv].
Defined.

End SortFacts.

(** ** Integers and their decimal text *)

Module StrconvFacts.
Import Strconv.

Lemma wrap64_range z : minInt64 <= wrap64 z <= maxInt64.
Proof.
  unfold wrap64, minInt64, maxInt64.
  pose proof (Z.mod_pos_bound (z + 2 ^ 63) (2 ^ 64)). lia.
Qed.

Lemma wrap64_id z : minInt64 <= z <= maxInt64 → wrap64 z = z.
Proof.
  unfold wrap64, minInt64, maxInt64. intros Hz.
  rewrite Z.mod_small; lia.
Qed.

Lemma to_int_proper z :
  Z.to_int z ≠ Decimal.Pos Decimal.Nil ∧ Z.to_int z ≠ Decimal.Neg Decimal.Nil.
Proof.
  destruct z as [|p|p]; simpl; split; try discriminate;
    intros [= Hp]; exact (DecimalPos.Unsigned.to_uint_nonnil p Hp).
Qed.

(** The text [%d] prints does not start with a plus sign. *)
Lemma formatInt_no_plus z s : formatInt z ≠ String "+"%char s.
Proof.
  unfold formatInt. intros Heq.
  destruct (to_int_proper z) as [Hp Hn].
  pose proof (NilZero.isi (Z.to_int z) Hp Hn) as Hisi.
  rewrite Heq in Hisi. unfold NilZero.int_of_string in Hisi.
  simpl in Hisi. unfold NilZero.uint_of_string in Hisi. simpl in Hisi.
  destruct (NilEmpty.uint_of_string s); discriminate Hisi.
Qed.

(** [ParseInt] reads back what [%d] printed of an [int64]. *)
Lemma ParseInt_formatInt z :
  minInt64 <= z <= maxInt64 → ParseInt (formatInt z) = (z, false).
Proof.
  intros Hz. unfold ParseInt.
  destruct (to_int_proper z) as [Hp Hn].
  assert (Hd : match formatInt z with
               | String "+"%char s' =>
                   option_map Decimal.Pos (NilZero.uint_of_string s')
               | _ => NilZero.int_of_string (formatInt z)
               end = Some (Z.to_int z)).
  { pose proof (formatInt_no_plus z) as Hplus.
    pose proof (NilZero.isi (Z.to_int z) Hp Hn) as Hisi.
    fold (formatInt z) in Hisi.
    destruct (formatInt z) as [|a s']; [exact Hisi|].
    destruct (Ascii.ascii_dec a "+"%char) as [-> | Hne].
    - destruct (Hplus s' eq_refl).
    - rewrite <- Hisi.
      destruct a as [[] [] [] [] [] [] [] []]; try reflexivity.
      destruct Hne. reflexivity. }
  rewrite Hd, DecimalZ.of_to.
  rewrite (proj2 (Z.ltb_ge _ _)) by lia.
  rewrite (proj2 (Z.ltb_ge _ _)) by lia. reflexivity.
Qed.

(** Go's [x % 2 == 0] is evenness, also for negative [x]. *)
Lemma rem2_even z : (Z.rem z 2 =? 0) = Z.even z.
Proof. symmetry. apply Zquot.Zeven_rem. Qed.

End StrconvFacts.

(** ** [make] *)

Lemma make_panics_false n : 0 <= n <= 2 ^ 45 → make_panics n = false.
Proof.
  intros Hn. unfold make_panics, maxAlloc.
  change (2 ^ 45) with 35184372088832 in Hn.
  change (2 ^ 48) with 281474976710656.
  apply orb_false_iff. split; [apply Z.ltb_ge | apply Z.ltb_ge]; lia.
Qed.

Lemma make_panics_true n : n < 0 ∨ 2 ^ 45 < n → make_panics n = true.
Proof.
  intros Hn. unfold make_panics, maxAlloc.
  change (2 ^ 45) with 35184372088832 in Hn.
  change (2 ^ 48) with 281474976710656.
  apply orb_true_iff.
  destruct Hn as [Hn | Hn]; [left | right]; apply Z.ltb_lt; lia.
Qed.

(** ** The generator *)

Module GeneratorFacts.
Import Generator.
Section WithRuntime.
Context `{RT : GoRuntime}.

Lemma generate_loop_unfold size i numbers s :
  generate_loop size i numbers s =
  if i <? size then
    generate_loop size (i + 1)
      (<[Z.to_nat i := (rand_Intn 20000 s).1]> numbers)
      (rand_Intn 20000 s).2
  else (numbers, s).
Proof.
  funelim (generate_loop size i numbers s); rewrite ?Hi, ?e; reflexivity.
Qed.

Lemma generate_loop_length size i numbers s :
  length (generate_loop size i numbers s).1 = length numbers.
Proof.
  funelim (generate_loop size i numbers s); simpl.
  - rewrite H, length_insert. reflexivity.
  - reflexivity.
Qed.

(** A property of the initial elements and of every draw holds of all
    elements at the end. *)
Lemma generate_loop_Forall (P : Z → Prop) size i numbers s :
  (∀ s', P (rand_Intn 20000 s').1) →
  Forall P numbers → Forall P (generate_loop size i numbers s).1.
Proof.
  intros Hdraw. funelim (generate_loop size i numbers s); simpl; intros Hall.
  - apply H; [exact Hdraw|].
    apply Forall_insert; [exact Hall | apply Hdraw].
  - exact Hall.
Qed.

(** The slice the loop leaves: what was below [i] when it started,
    then one draw per remaining index, in order. *)
Lemma generate_loop_draws size i numbers s :
  0 <= i <= size → Sort.len numbers = size →
  generate_loop size i numbers s =
  (take (Z.to_nat i) numbers ++ (draws (Z.to_nat (size - i)) s).1,
   (draws (Z.to_nat (size - i)) s).2).
Proof.
  unfold Sort.len.
  funelim (generate_loop size i numbers s); intros Hi' Hlen.
  - pose proof (proj1 (Z.ltb_lt _ _) Hi) as Hlt.
    rewrite H by (rewrite ?length_insert; lia).
    replace (Z.to_nat (size - i)) with (S (Z.to_nat (size - (i + 1))))
      by lia.
    replace (Z.to_nat (i + 1)) with (S (Z.to_nat i)) by lia.
    rewrite (take_S_r _ _ (rand_Intn 20000 s).1)
      by (apply list_lookup_insert_eq; lia).
    rewrite take_insert_ge by lia.
    simpl. destruct (draws _ _) as [rest s']. simpl.
    rewrite <- app_assoc. reflexivity.
  - pose proof (proj1 (Z.ltb_ge _ _) e) as Hge.
    replace (Z.to_nat (size - i)) with 0%nat by lia.
    simpl. rewrite app_nil_r, take_ge by lia. reflexivity.
Qed.

Lemma generateRandomNumbers_draws size s :
  0 <= size <= 2 ^ 45 →
  generateRandomNumbers size s = Some (draws (Z.to_nat size) s).
Proof.
  intros Hsize. unfold generateRandomNumbers.
  rewrite make_panics_false by exact Hsize.
  rewrite generate_loop_draws
    by (unfold Sort.len; rewrite ?length_replicate; lia).
  rewrite Z.sub_0_r. simpl. destruct (draws _ _). reflexivity.
Qed.

Lemma draws_length n s : length (draws n s).1 = n.
Proof.
  revert s. induction n as [|n IH]; intros s; simpl; [reflexivity|].
  specialize (IH (rand_Intn 20000 s).2).
  destruct (draws n _). simpl in *. lia.
Qed.

Lemma draws_Forall (P : Z → Prop) n s :
  (∀ s', P (rand_Intn 20000 s').1) → Forall P (draws n s).1.
Proof.
  intros Hdraw. revert s. induction n as [|n IH]; intros s; simpl.
  - constructor.
  - specialize (IH (rand_Intn 20000 s).2).
    destruct (draws n _). simpl in *. constructor; [apply Hdraw | exact IH].
Qed.

End WithRuntime.

(** The runtime the model is run on keeps the promises of Go's. *)
Lemma testRuntime_spec : GoRuntimeSpec testRuntime.
Proof.
  split.
  - intros n s Hn. simpl. apply Z.mod_pos_bound. exact Hn.
  - intros d. simpl. destruct (Strconv.formatInt d); discriminate.
Qed.

(** C9, as stated, fails for a size [make] does not allocate: on
    [2 ^ 62], a non-negative [int], the code panics and returns no
    dataset. *)
Lemma generateRandomNumbers_huge_size_counterexample :
  0 <= 2 ^ 62 ∧
  generateRandomNumbers (RT := testRuntime) (2 ^ 62) (42 : Z) = None ∧
  ¬ (∀ (size : Z) (s : @RngState testRuntime),
       0 <= size →
       ∃ numbers s',
         generateRandomNumbers size s = Some (numbers, s') ∧
         Sort.len numbers = size ∧
         Forall (λ x, 0 <= x < 20000) numbers).
Proof.
  assert (Hnone : generateRandomNumbers (RT := testRuntime) (2 ^ 62) (42 : Z)
                  = None) by reflexivity.
  split; [discriminate|]. split; [exact Hnone|].
  intros Hall.
  destruct (Hall (2 ^ 62) (42 : Z)) as (numbers & s' & Hgen & _);
    [discriminate|].
  rewrite Hnone in Hgen. discriminate Hgen.
Qed.

(** C9, amended: for every [size] from 0 to [2 ^ 45], the largest
    length [make] allocates an [[]int] of, and every state of the
    random source, [generateRandomNumbers size] returns [size]
    integers, one draw of the source each, and each of them in
    [[0, 20000)], the bound the code draws below; for a negative size
    and for one above [2 ^ 45] it panics in [make]. *)
Theorem generateRandomNumbers_size_range
    `{RT : GoRuntime} {RTS : GoRuntimeSpec RT} (size : Z) (s : RngState) :
  (0 <= size <= 2 ^ 45 →
   ∃ numbers s',
     generateRandomNumbers size s = Some (numbers, s') ∧
     (numbers, s') = draws (Z.to_nat size) s ∧
     Sort.len numbers = size ∧
     Forall (λ x, 0 <= x < 20000) numbers) ∧
  (size < 0 ∨ 2 ^ 45 < size → generateRandomNumbers size s = None).
Proof.
  split.
  - intros Hsize.
    exists (draws (Z.to_nat size) s).1, (draws (Z.to_nat size) s).2.
    rewrite <- surjective_pairing.
    split; [apply generateRandomNumbers_draws; exact Hsize|].
    split; [reflexivity|]. split.
    + unfold Sort.len. rewrite draws_length. lia.
    + apply draws_Forall. intros s0. apply rand_Intn_range. lia.
  - intros Hout. unfold generateRandomNumbers.
    rewrite make_panics_true by exact Hout. reflexivity.
Qed.

Lemma generateRandomNumbers_size_range_witness :
  (0 <= 3 <= 2 ^ 45 ∧
   ∃ numbers s',
     generateRandomNumbers (RT := testRuntime) 3 (42 : Z)
     = Some (numbers, s') ∧
     Sort.len numbers = 3 ∧
     Forall (λ x, 0 <= x < 20000) numbers) ∧
  ((2 ^ 45 + 1 < 0 ∨ 2 ^ 45 < 2 ^ 45 + 1) ∧
   generateRandomNumbers (RT := testRuntime) (2 ^ 45 + 1) (42 : Z) = None).
Proof.
  assert (H3 : 0 <= 3 <= 2 ^ 45) by (split; discriminate).
  assert (Hbig : 2 ^ 45 + 1 < 0 ∨ 2 ^ 45 < 2 ^ 45 + 1)
    by (right; reflexivity).
  split.
  - split; [exact H3|].
    destruct (proj1 (generateRandomNumbers_size_range
                       (RT := testRuntime) (RTS := testRuntime_spec)
                       3 (42 : Z)) H3)
      as (numbers & s' & Hgen & _ & Hlen & Hall).
    exists numbers, s'.
    split; [exact Hgen|]. split; [exact Hlen | exact Hall].
  - split; [exact Hbig|].
    exact (proj2 (generateRandomNumbers_size_range
                    (RT := testRuntime) (RTS := testRuntime_spec)
                    (2 ^ 45 + 1) (42 : Z)) Hbig).
Defined.

End GeneratorFacts.


(** ** The handler *)

Module HandlerFacts.
Import Strconv Handler HandlerSpec.
Ltac run_handler :=
  unfold serve, sortHandler, reject, accept,
    tracer_Start, on_span, logger_log, Header_Set, WriteHeader, Encode,
    Counter_Inc_sortRequests, Counter_Inc_errorCounter,
    Gauge_Set_arraySize, Histogram_Observe_sortDuration,
    call_generateRandomNumbers, slice_prefix, bind, ret, panic, update,
    with_metrics, with_logs, with_spans, with_rng, with_writer.

Ltac fields :=
  cbn [metrics logs tracer spans rng writer header statusCode body
       sortRequests errorCounter arraySize sortDuration fst snd negb].

Section WithRuntime.
Context `{RT : GoRuntime}.

(** The parity test of the handler sees the parity of the clock reading. *)
Lemma gate_even clk :
  (Z.rem (ParseInt (formatInt (UnixNano clk))).1 2 =? 0)
  = Z.even (UnixNano clk).
Proof.
  rewrite StrconvFacts.ParseInt_formatInt
    by apply StrconvFacts.wrap64_range.
  apply StrconvFacts.rem2_even.
Qed.

Lemma serve_not_GET r clk w :
  Method r ≠ MethodGet →
  serve r clk w =
  Some (rejected StatusMethodNotAllowed
          "Method not allowed" "method not allowed" clk w).
Proof.
  intros Hm. apply String.eqb_neq in Hm.
  run_handler. fields.
  destruct (tracer w) eqn:Htr; fields; rewrite Hm; fields;
    unfold rejected; rewrite Htr, <- ?app_assoc, ?app_nil_r; reflexivity.
Qed.

Lemma serve_even r clk w :
  Method r = MethodGet → Z.even (UnixNano clk) = true →
  serve r clk w =
  Some (rejected StatusBadRequest
          "Request is even" "request id is even" clk w).
Proof.
  intros Hm Hev. apply String.eqb_eq in Hm.
  run_handler. fields.
  destruct (tracer w) eqn:Htr; fields; rewrite Hm, gate_even, Hev; fields;
    unfold rejected; rewrite Htr, <- ?app_assoc, ?app_nil_r; reflexivity.
Qed.

Lemma serve_odd_with r clk w numbers s' :
  Method r = MethodGet → Z.even (UnixNano clk) = false →
  Generator.generateRandomNumbers size (rng w) = Some (numbers, s') →
  Sort.len numbers = size →
  serve r clk w = Some (accepted_with numbers s' clk w).
Proof.
  intros Hm Hodd Hgen Hlen. apply String.eqb_eq in Hm.
  assert (H10 : (10 ≤ length numbers)%nat)
    by (unfold Sort.len, size in Hlen; lia).
  assert (H10' : (10 ≤ length (Sort.parallelMergeSort numbers))%nat).
  { rewrite SortFacts.parallelMergeSort_mergeSort.
    rewrite (Permutation_length (SortFacts.mergeSort_Permutation numbers)).
    exact H10. }
  run_handler. fields.
  destruct (tracer w) eqn:Htr; fields; rewrite Hm, gate_even, Hodd; fields;
    rewrite Hgen; fields;
    rewrite !decide_True by assumption; fields;
    unfold accepted_with; rewrite Htr, <- ?app_assoc, ?app_nil_r;
    reflexivity.
Qed.


Lemma serve_odd r clk w :
  Method r = MethodGet → Z.odd (UnixNano clk) = true →
  serve r clk w = Some (accepted clk w).
Proof.
  intros Hm Hodd. rewrite <- Z.negb_even in Hodd.
  apply negb_true_iff in Hodd.
  pose proof (GeneratorFacts.generateRandomNumbers_draws size (rng w))
    as Hgen.
  rewrite (surjective_pairing (Generator.draws _ _)) in Hgen.
  apply serve_odd_with;
    [exact Hm | exact Hodd | apply Hgen; split; discriminate |].
  unfold Sort.len. rewrite GeneratorFacts.draws_length.
  unfold size. lia.
Qed.

Lemma even_or_odd z : {Z.even z = true} + {Z.odd z = true}.
Proof.
  rewrite <- Z.negb_even. destruct (Z.even z); [left | right]; reflexivity.
Qed.

Lemma served_OK_gates r clk w :
  served_OK r clk w
  = (String.eqb (Method r) MethodGet && Z.odd (UnixNano clk))%bool.
Proof.
  unfold served_OK.
  destruct (String.eqb_spec (Method r) MethodGet) as [Hm | Hm].
  - destruct (even_or_odd (UnixNano clk)) as [He | Ho].
    + rewrite (serve_even r clk w Hm He), <- Z.negb_even, He. reflexivity.
    + rewrite (serve_odd r clk w Hm Ho), Ho. reflexivity.
  - rewrite (serve_not_GET r clk w Hm). reflexivity.
Qed.

End WithRuntime.

(** *** The claims about the handler *)

(** C4: a request that is not a GET is answered 405 with the body
    [{requestID, status: error}]; a GET with an even id is answered 400
    with the same body; a GET with an odd id is answered 200 with
    [{requestID, status: success, duration}]; each of the two
    rejections adds exactly one to the error counter. *)
Theorem sort_responses `{RT : GoRuntime} {RTS : GoRuntimeSpec RT}
    (r : Request) (clk : Clock) (w : World) :
  ∃ w', serve r clk w = Some w' ∧
    (Method r ≠ "GET"%string →
       statusCode (writer w') = Some 405 ∧
       body (writer w') =
         [[("requestID"%string, formatInt (UnixNano clk));
           ("status"%string, "error"%string)]] ∧
       errorCounter (metrics w') = errorCounter (metrics w) + 1) ∧
    (Method r = "GET"%string → Z.even (UnixNano clk) = true →
       statusCode (writer w') = Some 400 ∧
       body (writer w') =
         [[("requestID"%string, formatInt (UnixNano clk));
           ("status"%string, "error"%string)]] ∧
       errorCounter (metrics w') = errorCounter (metrics w) + 1) ∧
    (Method r = "GET"%string → Z.odd (UnixNano clk) = true →
       statusCode (writer w') = Some 200 ∧
       body (writer w') =
         [[("requestID"%string, formatInt (UnixNano clk));
           ("status"%string, "success"%string);
           ("duration"%string, Duration_String (elapsed clk))]] ∧
       errorCounter (metrics w') = errorCounter (metrics w)).
Proof.
  destruct (decide (Method r = MethodGet)) as [Hm | Hm].
  - destruct (even_or_odd (UnixNano clk)) as [He | Ho].
    + eexists. split; [apply (serve_even r clk w Hm He)|].
      split; [intros Hne; destruct (Hne Hm)|].
      split; [intros _ _; repeat split|].
      intros _ Ho. rewrite <- Z.negb_even, He in Ho. discriminate Ho.
    + eexists. split; [apply (serve_odd r clk w Hm Ho)|].
      split; [intros Hne; destruct (Hne Hm)|].
      split.
      * intros _ He. rewrite <- Z.negb_even, He in Ho. discriminate Ho.
      * intros _ _. split; [reflexivity|]. split; [|reflexivity].
        unfold accepted, accepted_with, Response_json. fields.
        cbn [RequestID Status Duration].
        rewrite decide_False by apply Duration_String_nonempty.
        reflexivity.
  - eexists. split; [apply (serve_not_GET r clk w Hm)|].
    split; [intros _; repeat split|].
    split; intros Hm'; destruct (Hm Hm').
Qed.

Lemma sort_responses_witness :
  (∃ w', serve POST odd_clock world0 = Some w' ∧
         statusCode (writer w') = Some 405) ∧
  (∃ w', serve GET even_clock world0 = Some w' ∧
         statusCode (writer w') = Some 400) ∧
  (∃ w', serve GET odd_clock world0 = Some w' ∧
         statusCode (writer w') = Some 200).
Proof.
  assert (Hpost : Method POST ≠ "GET"%string) by discriminate.
  assert (Hget : Method GET = "GET"%string) by reflexivity.
  assert (Heven : Z.even (UnixNano even_clock) = true) by reflexivity.
  assert (Hodd : Z.odd (UnixNano odd_clock) = true) by reflexivity.
  split; [|split].
  - destruct (sort_responses (RTS := GeneratorFacts.testRuntime_spec)
                POST odd_clock world0) as (w' & Hs & H405 & _ & _).
    exists w'. split; [exact Hs | exact (proj1 (H405 Hpost))].
  - destruct (sort_responses (RTS := GeneratorFacts.testRuntime_spec)
                GET even_clock world0) as (w' & Hs & _ & H400 & _).
    exists w'. split; [exact Hs | exact (proj1 (H400 Hget Heven))].
  - destruct (sort_responses (RTS := GeneratorFacts.testRuntime_spec)
                GET odd_clock world0) as (w' & Hs & _ & _ & H200).
    exists w'. split; [exact Hs | exact (proj1 (H200 Hget Hodd))].
Defined.

(** C5: every request adds exactly one to [sort_requests_total],
    whether it is rejected or sorted. *)
Theorem sortRequests_incremented_once `{RT : GoRuntime}
    (r : Request) (clk : Clock) (w : World) :
  ∃ w', serve r clk w = Some w' ∧
        sortRequests (metrics w') = sortRequests (metrics w) + 1.
Proof.
  destruct (decide (Method r = MethodGet)) as [Hm | Hm].
  - destruct (even_or_odd (UnixNano clk)) as [He | Ho].
    + eexists. split; [apply (serve_even r clk w Hm He) | reflexivity].
    + eexists. split; [apply (serve_odd r clk w Hm Ho) | reflexivity].
  - eexists. split; [apply (serve_not_GET r clk w Hm) | reflexivity].
Qed.

(** C6: a GET with an odd id, the request that is sorted, adds exactly
    one observation to [sort_duration_seconds], the duration measured
    around the sort; a rejected request (not a GET, or an even id) adds
    none. *)
Theorem sortDuration_observed `{RT : GoRuntime}
    (r : Request) (clk : Clock) (w : World) :
  ∃ w', serve r clk w = Some w' ∧
    (Method r = "GET"%string → Z.odd (UnixNano clk) = true →
       sortDuration (metrics w') = elapsed clk :: sortDuration (metrics w)) ∧
    (Method r ≠ "GET"%string ∨ Z.even (UnixNano clk) = true →
       sortDuration (metrics w') = sortDuration (metrics w)).
Proof.
  destruct (decide (Method r = MethodGet)) as [Hm | Hm].
  - destruct (even_or_odd (UnixNano clk)) as [He | Ho].
    + eexists. split; [apply (serve_even r clk w Hm He)|].
      split; [|reflexivity].
      intros _ Ho. rewrite <- Z.negb_even, He in Ho. discriminate Ho.
    + eexists. split; [apply (serve_odd r clk w Hm Ho)|].
      split; [reflexivity|].
      intros [Hne | He]; [destruct (Hne Hm)|].
      rewrite <- Z.negb_even, He in Ho. discriminate Ho.
  - eexists. split; [apply (serve_not_GET r clk w Hm)|].
    split; [|reflexivity]. intros Hm'. destruct (Hm Hm').
Qed.

Lemma sortDuration_observed_witness :
  (∃ w', serve GET odd_clock world0 = Some w' ∧
         sortDuration (metrics w') = [1500]) ∧
  (∃ w', serve GET even_clock world0 = Some w' ∧
         sortDuration (metrics w') = []) ∧
  (∃ w', serve POST odd_clock world0 = Some w' ∧
         sortDuration (metrics w') = []).
Proof.
  assert (Hpost : Method POST ≠ "GET"%string) by discriminate.
  assert (Hget : Method GET = "GET"%string) by reflexivity.
  assert (Heven : Z.even (UnixNano even_clock) = true) by reflexivity.
  assert (Hodd : Z.odd (UnixNano odd_clock) = true) by reflexivity.
  split; [|split].
  - destruct (sortDuration_observed GET odd_clock world0)
      as (w' & Hs & Hacc & _).
    exists w'. split; [exact Hs | exact (Hacc Hget Hodd)].
  - destruct (sortDuration_observed GET even_clock world0)
      as (w' & Hs & _ & Hrej).
    exists w'. split; [exact Hs | exact (Hrej (or_intror Heven))].
  - destruct (sortDuration_observed POST odd_clock world0)
      as (w' & Hs & _ & Hrej).
    exists w'. split; [exact Hs | exact (Hrej (or_introl Hpost))].
Defined.

(** C7: a rejected request (not a GET, or an even id) does no work: the
    random source is where it was, so no dataset was drawn; the gauge
    and the histogram are untouched; the tracer hears of the span
    [sort-handler] only, not of a generation or a sort span; two lines
    are logged, the reception and the warning; and the body is the one
    error document, without a duration.  The world is the one written
    out as [rejected]. *)
Theorem rejection_short_circuits `{RT : GoRuntime}
    (r : Request) (clk : Clock) (w : World) :
  Method r ≠ "GET"%string ∨ Z.even (UnixNano clk) = true →
  ∃ w' code warning error ops,
    serve r clk w = Some w' ∧
    w' = rejected code warning error clk w ∧
    rng w' = rng w ∧
    arraySize (metrics w') = arraySize (metrics w) ∧
    sortDuration (metrics w') = sortDuration (metrics w) ∧
    spans w' = spans w ++ ops ∧
    Forall (λ op, span_of op = "sort-handler"%string) ops ∧
    length (logs w') = (length (logs w) + 2)%nat ∧
    body (writer w') =
      [[("requestID"%string, formatInt (UnixNano clk));
        ("status"%string, "error"%string)]].
Proof.
  intros Hrej.
  assert (Hshape : ∀ code warning error,
    ∃ ops, spans (rejected code warning error clk w) = spans w ++ ops ∧
           Forall (λ op, span_of op = "sort-handler"%string) ops).
  { intros code warning error. unfold rejected. fields.
    eexists. split; [reflexivity|].
    destruct (tracer w); repeat constructor. }
  assert (Hlogs : ∀ code warning error,
    length (logs (rejected code warning error clk w))
    = (length (logs w) + 2)%nat).
  { intros code warning error. unfold rejected. fields.
    rewrite length_app. reflexivity. }
  destruct (decide (Method r = MethodGet)) as [Hm | Hm].
  - destruct Hrej as [Hne | He]; [destruct (Hne Hm)|].
    destruct (Hshape StatusBadRequest "Request is even"%string
                "request id is even"%string) as (ops & Hops & Hall).
    eexists _, _, _, _, ops.
    split; [apply (serve_even r clk w Hm He)|].
    split; [reflexivity|].
    repeat (split; [reflexivity|]).
    split; [exact Hops|]. split; [exact Hall|].
    split; [apply Hlogs | reflexivity].
  - destruct (Hshape StatusMethodNotAllowed "Method not allowed"%string
                "method not allowed"%string) as (ops & Hops & Hall).
    eexists _, _, _, _, ops.
    split; [apply (serve_not_GET r clk w Hm)|].
    split; [reflexivity|].
    repeat (split; [reflexivity|]).
    split; [exact Hops|]. split; [exact Hall|].
    split; [apply Hlogs | reflexivity].
Qed.

Lemma rejection_short_circuits_witness :
  (Method POST ≠ "GET"%string ∨ Z.even (UnixNano odd_clock) = true) ∧
  ∃ w', serve POST odd_clock world0 = Some w' ∧
        rng w' = rng world0 ∧
        arraySize (metrics w') = [] ∧ sortDuration (metrics w') = [].
Proof.
  assert (Hrej : Method POST ≠ "GET"%string
                 ∨ Z.even (UnixNano odd_clock) = true)
    by (left; discriminate).
  split; [exact Hrej|].
  destruct (rejection_short_circuits POST odd_clock world0 Hrej)
    as (w' & code & warning & error & ops & Hs & _ & Hrng & Hg & Hh & _).
  exists w'. split; [exact Hs|]. split; [exact Hrng|].
  split; [exact Hg | exact Hh].
Defined.

(** C8, as stated, fails: a GET and a POST that arrive at the same odd
    nanosecond have ids of the same parity, and the first is sorted
    while the second is rejected. *)
Lemma parity_not_sole_criterion :
  (served_OK GET odd_clock world0 = true ∧
   served_OK POST odd_clock world0 = false) ∧
  ¬ (∀ (r1 r2 : Request) (clk1 clk2 : Clock) (w : World (RT := testRuntime)),
       Z.even (UnixNano clk1) = Z.even (UnixNano clk2) →
       served_OK r1 clk1 w = served_OK r2 clk2 w).
Proof.
  assert (Hget : served_OK GET odd_clock world0 = true)
    by (rewrite served_OK_gates; reflexivity).
  assert (Hpost : served_OK POST odd_clock world0 = false)
    by (rewrite served_OK_gates; reflexivity).
  split; [split; assumption|].
  intros Hall.
  specialize (Hall GET POST odd_clock odd_clock world0 eq_refl).
  rewrite Hget, Hpost in Hall. discriminate Hall.
Qed.

(** C8, amended: among GET requests the parity of the id is the sole
    admission criterion, odd ids being sorted and even ids rejected,
    and a request that is not a GET is rejected whatever the parity.
    The id is the clock reading taken once on arrival: the integer the
    gate parses back is that reading, without a parse error, and its
    decimal text is the [requestID] of the response. *)
Theorem admission_criterion `{RT : GoRuntime}
    (r : Request) (clk : Clock) (w : World) :
  (served_OK r clk w = true ↔
     Method r = "GET"%string ∧ Z.odd (UnixNano clk) = true) ∧
  (Method r ≠ "GET"%string → served_OK r clk w = false) ∧
  ParseInt (formatInt (UnixNano clk)) = (UnixNano clk, false) ∧
  ∃ w' doc, serve r clk w = Some w' ∧ body (writer w') = [doc] ∧
            head doc = Some ("requestID"%string, formatInt (UnixNano clk)).
Proof.
  rewrite served_OK_gates. split; [|split; [|split]].
  - rewrite andb_true_iff.
    destruct (String.eqb_spec (Method r) MethodGet); intuition congruence.
  - intros Hm. apply andb_false_iff. left. apply String.eqb_neq. exact Hm.
  - apply StrconvFacts.ParseInt_formatInt, StrconvFacts.wrap64_range.
  - destruct (decide (Method r = MethodGet)) as [Hm | Hm].
    + destruct (even_or_odd (UnixNano clk)) as [He | Ho].
      * eexists _, _. split; [apply (serve_even r clk w Hm He)|].
        split; reflexivity.
      * eexists _, _. split; [apply (serve_odd r clk w Hm Ho)|].
        split; reflexivity.
    + eexists _, _. split; [apply (serve_not_GET r clk w Hm)|].
      split; reflexivity.
Qed.

Lemma admission_criterion_witness :
  (Method GET = "GET"%string ∧ Z.odd (UnixNano odd_clock) = true) ∧
  served_OK GET odd_clock world0 = true ∧
  Method POST ≠ "GET"%string ∧
  served_OK POST odd_clock world0 = false.
Proof.
  assert (Hgo : Method GET = "GET"%string ∧ Z.odd (UnixNano odd_clock) = true)
    by (split; reflexivity).
  assert (Hpost : Method POST ≠ "GET"%string) by discriminate.
  split; [exact Hgo|].
  split; [exact (proj2 (proj1 (admission_criterion GET odd_clock world0)) Hgo)|].
  split; [exact Hpost|].
  exact (proj1 (proj2 (admission_criterion POST odd_clock world0)) Hpost).
Defined.

End HandlerFacts.

(** ** More on the sort *)

Module SortMore.
Import Sort SortRun SortFacts.

(** *** [merge] *)

(** X1: whatever the two slices hold, sorted or not, [merge] returns
    their elements, each as often as it occurs in them, and as many as
    the two have together. *)
Theorem merge_keeps_elements (l r : list Z) :
  merge l r ≡ₚ l ++ r ∧ len (merge l r) = len l + len r.
Proof.
  pose proof (merge_perm l r) as Hp. split; [exact Hp|].
  unfold len. rewrite (Permutation_length Hp), length_app. lia.
Qed.

(** X2: the merge of two non-decreasing slices is non-decreasing. *)
Theorem merge_of_sorted (l r : list Z) :
  Sorted Z.le l → Sorted Z.le r → Sorted Z.le (merge l r).
Proof. apply merge_Sorted. Qed.

Lemma merge_of_sorted_witness :
  Sorted Z.le [1; 4; 4] ∧ Sorted Z.le [2; 4; 9] ∧
  Sorted Z.le (merge [1; 4; 4] [2; 4; 9]).
Proof.
  assert (Hl : Sorted Z.le [1; 4; 4]) by (repeat constructor; lia).
  assert (Hr : Sorted Z.le [2; 4; 9]) by (repeat constructor; lia).
  split; [exact Hl|]. split; [exact Hr|].
  exact (merge_of_sorted [1; 4; 4] [2; 4; 9] Hl Hr).
Defined.

(** X3: merging with an empty slice returns the other slice, whether or
    not it is sorted. *)
Theorem merge_empty (l : list Z) : merge [] l = l ∧ merge l [] = l.
Proof.
  rewrite !merge_list_merge. split.
  - apply list_merge_nil_l.
  - apply list_merge_nil_r.
Qed.

Lemma list_merge_app_rev (l r : list Z) :
  (∀ x y, x ∈ l → y ∈ r → y < x) → list_merge Z.le l r = r ++ l.
Proof.
  revert l. induction r as [|y r IH]; intros l Hlt.
  - apply list_merge_nil_r.
  - destruct l as [|x l].
    + rewrite app_nil_r. apply list_merge_nil_l.
    + rewrite list_merge_cons, decide_False.
      * simpl. f_equal. apply IH.
        intros a b Ha Hb. apply Hlt; [|apply list_elem_of_further]; assumption.
      * pose proof (Hlt x y (list_elem_of_here _ _) (list_elem_of_here _ _)).
        lia.
Qed.

(** X4: when no element of the left slice is above an element of the
    right one, [merge] is the left slice followed by the right one, so
    that equal elements come out left first; when every element of the
    right slice is strictly below every element of the left one, it is
    the right slice followed by the left one. *)
Theorem merge_concatenates (l r : list Z) :
  ((∀ x y, x ∈ l → y ∈ r → x <= y) → merge l r = l ++ r) ∧
  ((∀ x y, x ∈ l → y ∈ r → y < x) → merge l r = r ++ l).
Proof.
  rewrite merge_list_merge. split.
  - apply list_merge_app.
  - apply list_merge_app_rev.
Qed.

Lemma merge_concatenates_witness :
  merge [1; 2; 2] [2; 3] = [1; 2; 2] ++ [2; 3] ∧
  merge [7; 5] [4; 1] = [4; 1] ++ [7; 5].
Proof.
  split.
  - apply (proj1 (merge_concatenates [1; 2; 2] [2; 3])).
    intros x y Hx Hy.
    repeat (apply elem_of_cons in Hx as [-> | Hx]);
      try (apply elem_of_nil in Hx; destruct Hx);
      repeat (apply elem_of_cons in Hy as [-> | Hy]);
      try (apply elem_of_nil in Hy; destruct Hy); lia.
  - apply (proj2 (merge_concatenates [7; 5] [4; 1])).
    intros x y Hx Hy.
    repeat (apply elem_of_cons in Hx as [-> | Hx]);
      try (apply elem_of_nil in Hx; destruct Hx);
      repeat (apply elem_of_cons in Hy as [-> | Hy]);
      try (apply elem_of_nil in Hy; destruct Hy); lia.
Defined.

(** *** [mergeSort] *)

(** X5: the result of [mergeSort] depends on the elements and their
    multiplicities only, not on the order they come in. *)
Theorem mergeSort_order_irrelevant (items items' : list Z) :
  items ≡ₚ items' → mergeSort items = mergeSort items'.
Proof.
  intros Hp. apply (Sorted_unique Z.le); try apply mergeSort_Sorted.
  rewrite !mergeSort_Permutation. exact Hp.
Qed.

Lemma mergeSort_order_irrelevant_witness :
  [3; 1; 2; 1] ≡ₚ [1; 1; 2; 3] ∧
  mergeSort [3; 1; 2; 1] = mergeSort [1; 1; 2; 3].
Proof.
  assert (Hp : [3; 1; 2; 1] ≡ₚ [1; 1; 2; 3]).
  { apply (Permutation_cons_app [1; 1; 2] [] 3). apply perm_skip, perm_swap. }
  split; [exact Hp | exact (mergeSort_order_irrelevant _ _ Hp)].
Defined.

(** X6: [mergeSort] returns what the merge sort of stdpp returns, and
    so does [parallelMergeSort]. *)
Theorem mergeSort_reference (items : list Z) :
  mergeSort items = merge_sort Z.le items ∧
  parallelMergeSort items = merge_sort Z.le items.
Proof.
  rewrite parallelMergeSort_mergeSort.
  assert (mergeSort items = merge_sort Z.le items) as ->; [|split; reflexivity].
  apply (Sorted_unique Z.le).
  - apply mergeSort_Sorted.
  - apply Sorted_merge_sort. apply _.
  - rewrite mergeSort_Permutation, merge_sort_Permutation. reflexivity.
Qed.

(** X7: the first [k] elements of the sorted slice are [k] smallest
    ones: none of them is above an element that comes after them. *)
Theorem mergeSort_prefix_smallest (items : list Z) (k : nat) (x y : Z) :
  x ∈ take k (mergeSort items) → y ∈ drop k (mergeSort items) → x <= y.
Proof.
  intros Hx Hy.
  pose proof (mergeSort_Sorted items) as Hs.
  apply Sorted_StronglySorted in Hs; [|apply _].
  rewrite <- (take_drop k (mergeSort items)) in Hs.
  exact (StronglySorted_app_1_elem_of Z.le _ _ x y Hs Hx Hy).
Qed.

Lemma mergeSort_prefix_smallest_witness :
  1 ∈ take 2 (mergeSort [5; 3; 4; 1; 2]) ∧
  4 ∈ drop 2 (mergeSort [5; 3; 4; 1; 2]) ∧ 1 <= 4.
Proof.
  assert (Hx : 1 ∈ take 2 (mergeSort [5; 3; 4; 1; 2]))
    by (vm_compute; apply list_elem_of_here).
  assert (Hy : 4 ∈ drop 2 (mergeSort [5; 3; 4; 1; 2]))
    by (vm_compute; apply list_elem_of_further, list_elem_of_here).
  split; [exact Hx|]. split; [exact Hy|].
  exact (mergeSort_prefix_smallest [5; 3; 4; 1; 2] 2 1 4 Hx Hy).
Defined.

(** *** The run of [parallelMergeSort] *)

Lemma blocks_concat items : concat (blocks (parallelMergeSort_run items).2) = items.
Proof.
  funelim (parallelMergeSort_run items); simpl.
  - apply app_nil_r.
  - apply app_nil_r.
  - rewrite concat_app, H, H0. apply slices_app.
Qed.

Lemma len_halves items :
  len (slice_to (middle items) items) = len items ÷ 2 ∧
  len (slice_from (middle items) items) = len items - len items ÷ 2.
Proof.
  pose proof (middle_in_bounds items) as Hm.
  rewrite len_slice_to, len_slice_from by exact Hm.
  unfold middle. split; reflexivity.
Qed.

Lemma half_bounds n : 0 <= n → n ÷ 2 <= n - n ÷ 2 <= n ÷ 2 + 1.
Proof.
  intros Hn. rewrite Z.quot_div_nonneg by lia.
  pose proof (Z.div_mod n 2). pose proof (Z.mod_pos_bound n 2). lia.
Qed.

Lemma len_nonneg items : 0 <= len items.
Proof. unfold len. lia. Qed.

Lemma blocks_at_most items :
  Forall (λ b, len b <= threshold) (blocks (parallelMergeSort_run items).2).
Proof.
  funelim (parallelMergeSort_run items); simpl.
  - constructor; [|constructor].
    pose proof (proj1 (Z.leb_le _ _) e). unfold threshold. lia.
  - constructor; [|constructor]. apply Z.leb_le. exact Heq.
  - apply Forall_app. split; assumption.
Qed.

Lemma blocks_at_least items :
  threshold ÷ 2 <= len items →
  Forall (λ b, threshold ÷ 2 <= len b) (blocks (parallelMergeSort_run items).2).
Proof.
  funelim (parallelMergeSort_run items); simpl; intros Hge.
  - constructor; [exact Hge | constructor].
  - constructor; [exact Hge | constructor].
  - pose proof (proj1 (Z.leb_gt _ _) Heq) as HT.
    destruct (len_halves items) as [Hl Hr].
    pose proof (half_bounds (len items) (len_nonneg items)) as Hh.
    assert (Hhalf : threshold ÷ 2 <= len items ÷ 2)
      by (apply Z.quot_le_mono; lia).
    apply Forall_app. split; [apply H | apply H0]; lia.
Qed.

Lemma concat_len_bounds (c : Z) (bs : list (list Z)) :
  (Forall (λ b, c <= len b) bs → c * Z.of_nat (length bs) <= len (concat bs)) ∧
  (Forall (λ b, len b <= c) bs → len (concat bs) <= c * Z.of_nat (length bs)).
Proof.
  unfold len. split; induction 1 as [|b bs Hb _ IH]; simpl;
    rewrite ?length_app; lia.
Qed.

Lemma goroutines_blocks t : (goroutines t + 2 = 2 * length (blocks t))%nat.
Proof.
  induction t as [| |m a IHa b IHb]; simpl; try reflexivity.
  rewrite length_app. lia.
Qed.

(** X8: the blocks a run leaves whole are, from left to right, the
    input cut into pieces: no element is in two of them and none is
    left out.  No block is longer than the threshold, and above the
    threshold no block is shorter than half of it. *)
Theorem run_blocks_partition (items : list Z) :
  concat (blocks (parallelMergeSort_run items).2) = items ∧
  Forall (λ b, len b <= 100000) (blocks (parallelMergeSort_run items).2) ∧
  (100000 < len items →
     Forall (λ b, 50000 <= len b) (blocks (parallelMergeSort_run items).2)).
Proof.
  split; [apply blocks_concat|]. split; [apply blocks_at_most|].
  intros HT. apply (blocks_at_least items).
  change (threshold ÷ 2) with 50000. lia.
Qed.

Lemma run_blocks_partition_witness :
  100000 < len zeros250000 ∧
  Forall (λ b, 50000 <= len b) (blocks (parallelMergeSort_run zeros250000).2).
Proof.
  assert (HT : 100000 < len zeros250000)
    by (rewrite len_zeros250000; reflexivity).
  split; [exact HT|].
  exact (proj2 (proj2 (run_blocks_partition zeros250000)) HT).
Defined.

(** X9: the goroutines a run starts are two per fork, that is twice the
    number of blocks less two; up to the threshold there are none, and
    above it their number [g] is bounded by the length [n] of the input
    on both sides: [25000 * (g + 2) <= n <= 50000 * (g + 2)]. *)
Theorem goroutines_bounded (items : list Z) :
  (goroutines (parallelMergeSort_run items).2 + 2
   = 2 * length (blocks (parallelMergeSort_run items).2))%nat ∧
  (len items <= 100000 → goroutines (parallelMergeSort_run items).2 = 0%nat) ∧
  (100000 < len items →
     25000 * (Z.of_nat (goroutines (parallelMergeSort_run items).2) + 2)
       <= len items
       <= 50000 * (Z.of_nat (goroutines (parallelMergeSort_run items).2) + 2)).
Proof.
  pose proof (goroutines_blocks (parallelMergeSort_run items).2) as Hg.
  split; [exact Hg|]. split.
  - intros HT. rewrite parallelMergeSort_run_unfold.
    destruct (len items <=? 1); [reflexivity|].
    rewrite (proj2 (Z.leb_le _ _)) by exact HT. reflexivity.
  - intros HT.
    pose proof (blocks_at_most items) as Hmost.
    pose proof (blocks_at_least items) as Hleast.
    change (threshold ÷ 2) with 50000 in Hleast. unfold threshold in Hmost.
    apply (proj2 (concat_len_bounds 100000 _)) in Hmost.
    apply (proj1 (concat_len_bounds 50000 _)) in Hleast; [|lia].
    rewrite blocks_concat in Hmost, Hleast. lia.
Qed.

Lemma goroutines_bounded_witness :
  100000 < len zeros250000 ∧
  25000 * (Z.of_nat (goroutines (parallelMergeSort_run zeros250000).2) + 2)
    <= len zeros250000 ∧
  len [2; 1] <= 100000 ∧
  goroutines (parallelMergeSort_run [2; 1]).2 = 0%nat.
Proof.
  assert (HT : 100000 < len zeros250000)
    by (rewrite len_zeros250000; reflexivity).
  assert (Hs : len [2; 1] <= 100000) by (vm_compute; discriminate).
  split; [exact HT|].
  split; [exact (proj1 (proj2 (proj2 (goroutines_bounded zeros250000)) HT))|].
  split; [exact Hs|].
  exact (proj1 (proj2 (goroutines_bounded [2; 1])) Hs).
Defined.

Lemma fanout_depth items d :
  fanout_levels (parallelMergeSort_run items).2 = S d →
  2 ^ Z.of_nat d * threshold < len items.
Proof.
  revert d. funelim (parallelMergeSort_run items); simpl; intros d Hd.
  - discriminate Hd.
  - discriminate Hd.
  - pose proof (proj1 (Z.leb_gt _ _) Heq) as HT.
    destruct (len_halves items) as [Hl Hr].
    pose proof (len_nonneg items) as Hn0.
    rewrite Z.quot_div_nonneg in Hl, Hr by lia.
    pose proof (Z.div_mod (len items) 2) as Hdm.
    pose proof (Z.mod_pos_bound (len items) 2) as Hmod.
    injection Hd as Hd.
    destruct d as [|d]; [simpl; lia|].
    rewrite Nat2Z.inj_succ, Z.pow_succ_r by lia.
    destruct (Nat.max_spec
                (fanout_levels
                   (parallelMergeSort_run (slice_to (middle items) items)).2)
                (fanout_levels
                   (parallelMergeSort_run (slice_from (middle items) items)).2))
      as [[_ Hmax] | [_ Hmax]]; rewrite Hmax in Hd.
    + specialize (H0 d Hd). lia.
    + specialize (H d Hd). lia.
Qed.

(** X10: the forks of a run nest only logarithmically deep: a run with
    [d + 1] levels of forks sorts more than [2 ^ d] times the threshold
    many elements. *)
Theorem fanout_levels_logarithmic (items : list Z) (d : nat) :
  fanout_levels (parallelMergeSort_run items).2 = S d →
  2 ^ Z.of_nat d * 100000 < len items.
Proof. apply fanout_depth. Qed.

Lemma fanout_levels_logarithmic_witness :
  fanout_levels (parallelMergeSort_run zeros250000).2 = 2%nat ∧
  2 ^ Z.of_nat 1 * 100000 < len zeros250000.
Proof.
  assert (Hlv : fanout_levels (parallelMergeSort_run zeros250000).2 = 2%nat)
    by exact (proj1 (run_250000_shape zeros250000 len_zeros250000)).
  split; [exact Hlv|].
  exact (fanout_levels_logarithmic zeros250000 1 Hlv).
Defined.

Lemma run_power_of_two (k : nat) : ∀ (m : Z) (items : list Z),
  1 < m → m <= threshold → threshold < 2 * m →
  len items = 2 ^ Z.of_nat k * m →
  fanout_levels (parallelMergeSort_run items).2 = k ∧
  Z.of_nat (goroutines (parallelMergeSort_run items).2) + 2
    = 2 ^ (Z.of_nat k + 1) ∧
  Forall (λ b, len b = m) (blocks (parallelMergeSort_run items).2).
Proof.
  induction k as [|k IH]; intros m items H1 HmT HTm Hn.
  - simpl in Hn. rewrite run_sequential by lia. simpl.
    split; [reflexivity|]. split; [reflexivity|].
    constructor; [lia | constructor].
  - rewrite Nat2Z.inj_succ, Z.pow_succ_r in Hn by lia.
    assert (Hpow : 1 <= 2 ^ Z.of_nat k)
      by (pose proof (Z.pow_pos_nonneg 2 (Z.of_nat k)); lia).
    assert (HT : threshold < len items) by nia.
    assert (Hm : middle items = 2 ^ Z.of_nat k * m).
    { apply middle_even. lia. }
    destruct (len_halves items) as [Hl Hr]. fold (middle items) in Hl, Hr.
    rewrite Hm in Hl, Hr.
    destruct (IH m (slice_to (middle items) items) H1 HmT HTm)
      as (Hlv1 & Hg1 & Hb1); [rewrite Hm; exact Hl|].
    destruct (IH m (slice_from (middle items) items) H1 HmT HTm)
      as (Hlv2 & Hg2 & Hb2); [rewrite Hm; lia|].
    rewrite run_fork by exact HT.
    cbn [fst snd fanout_levels goroutines blocks].
    rewrite Hlv1, Hlv2, Nat.max_id.
    split; [reflexivity|]. split; [|apply Forall_app; split; assumption].
    replace (Z.of_nat (S k) + 1) with (Z.succ (Z.of_nat k + 1)) by lia.
    rewrite Z.pow_succ_r by lia. lia.
Qed.

(** X11: on an input of [2 ^ k * m] elements, where [m] is at most the
    threshold and more than half of it, the run has exactly [k] levels
    of forks, starts [2 ^ (k + 1) - 2] goroutines and sorts blocks of
    [m] elements each.  The dataset of 20000000 elements of the variant
    without tracing is the case [k = 8], [m = 78125]: 510 goroutines. *)
Theorem run_of_power_of_two_length (k : nat) (m : Z) (items : list Z) :
  1 < m → m <= 100000 → 100000 < 2 * m →
  len items = 2 ^ Z.of_nat k * m →
  fanout_levels (parallelMergeSort_run items).2 = k ∧
  Z.of_nat (goroutines (parallelMergeSort_run items).2)
    = 2 ^ (Z.of_nat k + 1) - 2 ∧
  Forall (λ b, len b = m) (blocks (parallelMergeSort_run items).2) ∧
  (len items = 20000000 →
     fanout_levels (parallelMergeSort_run items).2 = 8%nat ∧
     goroutines (parallelMergeSort_run items).2 = 510%nat).
Proof.
  intros H1 HmT HTm Hn.
  destruct (run_power_of_two k m items H1 HmT HTm Hn) as (Hlv & Hg & Hb).
  split; [exact Hlv|]. split; [lia|]. split; [exact Hb|].
  intros H20.
  assert (Hn8 : len items = 2 ^ Z.of_nat 8 * 78125)
    by (rewrite H20; reflexivity).
  destruct (run_power_of_two 8 78125 items) as (Hlv8 & Hg8 & _);
    [reflexivity | discriminate | reflexivity | exact Hn8 |].
  split; [exact Hlv8|].
  change (2 ^ (Z.of_nat 8 + 1)) with 512 in Hg8. lia.
Qed.

Lemma run_of_power_of_two_length_witness :
  (1 < 62500 ∧ 62500 <= 100000 ∧ 100000 < 2 * 62500 ∧
   len zeros250000 = 2 ^ Z.of_nat 2 * 62500) ∧
  fanout_levels (parallelMergeSort_run zeros250000).2 = 2%nat ∧
  Z.of_nat (goroutines (parallelMergeSort_run zeros250000).2) = 6.
Proof.
  assert (H1 : 1 < 62500) by reflexivity.
  assert (H2 : 62500 <= 100000) by discriminate.
  assert (H3 : 100000 < 2 * 62500) by reflexivity.
  assert (Hn : len zeros250000 = 2 ^ Z.of_nat 2 * 62500)
    by exact len_zeros250000.
  split; [exact (conj H1 (conj H2 (conj H3 Hn)))|].
  destruct (run_of_power_of_two_length 2 62500 zeros250000 H1 H2 H3 Hn)
    as (Hlv & Hg & _).
  split; [exact Hlv | exact Hg].
Defined.

End SortMore.

(** ** More on the generator *)

Module GeneratorMore.
Import Generator GeneratorFacts.
Section WithRuntime.
Context `{RT : GoRuntime}.

Lemma draws_app (m n : nat) (s : RngState) :
  draws (m + n) s =
  ((draws m s).1 ++ (draws n (draws m s).2).1, (draws n (draws m s).2).2).
Proof.
  revert s. induction m as [|m IH]; intros s; simpl.
  - destruct (draws n s). reflexivity.
  - rewrite IH. destruct (draws m _) as [xs s1]. simpl.
    destruct (draws n s1). reflexivity.
Qed.

End WithRuntime.

(** X12: [generateRandomNumbers] panics on a negative size, in
    [make]; on size zero it returns the empty slice and leaves the
    random source where it was. *)
Theorem generateRandomNumbers_edges `{RT : GoRuntime} (s : RngState) :
  (∀ size, size < 0 → generateRandomNumbers size s = None) ∧
  generateRandomNumbers 0 s = Some ([], s).
Proof.
  split.
  - intros size Hneg. unfold generateRandomNumbers.
    rewrite make_panics_true by (left; exact Hneg). reflexivity.
  - rewrite generateRandomNumbers_draws by (split; discriminate).
    reflexivity.
Qed.

Lemma generateRandomNumbers_edges_witness :
  -1 < 0 ∧ generateRandomNumbers (RT := testRuntime) (-1) (42 : Z) = None.
Proof.
  assert (Hneg : -1 < 0) by reflexivity.
  split; [exact Hneg|].
  exact (proj1 (generateRandomNumbers_edges (RT := testRuntime) (42 : Z))
           (-1) Hneg).
Defined.

(** X13: two datasets generated one after the other are, put end to
    end, the dataset of their joint size generated at once, as long as
    the joint size is one [make] allocates (at most [2 ^ 45], so that
    the sum is far from wrapping around): the generator takes from the
    random source exactly one draw per element, in order. *)
Theorem generateRandomNumbers_consecutive `{RT : GoRuntime}
    (a b : Z) (s : RngState) :
  0 <= a → 0 <= b → a + b <= 2 ^ 45 →
  ∃ xs s1 ys s2,
    generateRandomNumbers a s = Some (xs, s1) ∧
    generateRandomNumbers b s1 = Some (ys, s2) ∧
    generateRandomNumbers (a + b) s = Some (xs ++ ys, s2).
Proof.
  intros Ha Hb Hab.
  exists (draws (Z.to_nat a) s).1, (draws (Z.to_nat a) s).2,
         (draws (Z.to_nat b) (draws (Z.to_nat a) s).2).1,
         (draws (Z.to_nat b) (draws (Z.to_nat a) s).2).2.
  rewrite !generateRandomNumbers_draws by lia.
  rewrite <- !surjective_pairing. split; [reflexivity|].
  split; [reflexivity|].
  rewrite Z2Nat.inj_add, draws_app by lia. reflexivity.
Qed.

Lemma generateRandomNumbers_consecutive_witness :
  (0 <= 2 ∧ 0 <= 3 ∧ 2 + 3 <= 2 ^ 45) ∧
  ∃ xs s1 ys s2,
    generateRandomNumbers (RT := testRuntime) 2 (42 : Z) = Some (xs, s1) ∧
    generateRandomNumbers (RT := testRuntime) 3 s1 = Some (ys, s2) ∧
    generateRandomNumbers (RT := testRuntime) (2 + 3) (42 : Z)
    = Some (xs ++ ys, s2).
Proof.
  assert (Ha : 0 <= 2) by discriminate.
  assert (Hb : 0 <= 3) by discriminate.
  assert (Hab : 2 + 3 <= 2 ^ 45) by discriminate.
  split; [exact (conj Ha (conj Hb Hab))|].
  exact (generateRandomNumbers_consecutive (RT := testRuntime)
           2 3 (42 : Z) Ha Hb Hab).
Defined.

End GeneratorMore.

(** ** More on the handlers *)

Module HandlerMore.
Import Strconv Handler HandlerSpec Server HandlerFacts.
Section WithRuntime.
Context `{RT : GoRuntime}.

(** The two ways a call of [sortHandler] ends. *)
Lemma serve_cases r clk w :
  (∃ code warning error,
     serve r clk w = Some (rejected code warning error clk w) ∧
     (Method r ≠ MethodGet ∨ Z.even (UnixNano clk) = true)) ∨
  (serve r clk w = Some (accepted clk w) ∧
   Method r = MethodGet ∧ Z.odd (UnixNano clk) = true).
Proof.
  destruct (decide (Method r = MethodGet)) as [Hm | Hm].
  - destruct (even_or_odd (UnixNano clk)) as [He | Ho].
    + left. eexists _, _, _. split; [apply (serve_even r clk w Hm He)|].
      right. exact He.
    + right. split; [apply (serve_odd r clk w Hm Ho)|]. split; assumption.
  - left. eexists _, _, _. split; [apply (serve_not_GET r clk w Hm)|].
    left. exact Hm.
Qed.

Lemma handle_health r w : handle (HealthCall r) w = Some (health_world w).
Proof. reflexivity. Qed.

(** What one call does to the collectors. *)
Lemma handle_step c w :
  ∃ w', handle c w = Some w' ∧
    match c with
    | HealthCall _ => metrics w' = metrics w
    | SortCall r clk =>
        sortRequests (metrics w') = sortRequests (metrics w) + 1 ∧
        ((errorCounter (metrics w') = errorCounter (metrics w) + 1 ∧
          sortDuration (metrics w') = sortDuration (metrics w) ∧
          arraySize (metrics w') = arraySize (metrics w)) ∨
         (errorCounter (metrics w') = errorCounter (metrics w) ∧
          sortDuration (metrics w') = elapsed clk :: sortDuration (metrics w) ∧
          arraySize (metrics w') = size :: arraySize (metrics w)))
    end.
Proof.
  destruct c as [r clk | r].
  - destruct (serve_cases r clk w)
      as [(code & warning & error & Hs & _) | (Hs & _)];
      eexists; (split; [exact Hs|]); (split; [reflexivity|]).
    + left. repeat split.
    + right. repeat split.
  - eexists. split; [apply handle_health | reflexivity].
Qed.

Lemma handle_all_counters cs : ∀ w,
  ∃ w', handle_all cs w = Some w' ∧
    sortRequests (metrics w')
    = sortRequests (metrics w) + Z.of_nat (sort_calls cs) ∧
    errorCounter (metrics w) <= errorCounter (metrics w') ∧
    (length (sortDuration (metrics w)) <= length (sortDuration (metrics w')))%nat ∧
    sortRequests (metrics w') - sortRequests (metrics w)
    = (errorCounter (metrics w') - errorCounter (metrics w))
      + (Z.of_nat (length (sortDuration (metrics w')))
         - Z.of_nat (length (sortDuration (metrics w)))) ∧
    (length (arraySize (metrics w')) - length (arraySize (metrics w))
     = length (sortDuration (metrics w'))
       - length (sortDuration (metrics w)))%nat ∧
    (length (arraySize (metrics w)) <= length (arraySize (metrics w')))%nat.
Proof.
  induction cs as [|c cs IH]; intros w.
  - exists w. simpl. repeat split; lia.
  - destruct (handle_step c w) as (w1 & Hc & Hstep).
    destruct (IH w1) as (w' & Hall & Hreq & Herr & Hobs & Hsum & Hg & Hg').
    exists w'. split; [simpl; rewrite Hc; exact Hall|].
    destruct c as [r clk | r].
    + destruct Hstep as
        (Hr1 & [(He1 & Hd1 & Ha1) | (He1 & Hd1 & Ha1)]);
        rewrite Hd1, Ha1 in *; simpl in *; repeat split; lia.
    + rewrite Hstep in *. simpl. repeat split; assumption || lia.
Qed.

(** The span operations of one call. *)
Lemma spans_ok_app ops1 : ∀ open ops2,
  spans_ok open ops1 = true →
  spans_ok [] ops2 = true → spans_ok open (ops1 ++ ops2) = true.
Proof.
  induction ops1 as [|op ops1 IH]; intros open ops2 H1 H2; simpl in *.
  - apply bool_decide_eq_true in H1. subst open. exact H2.
  - destruct op; try (apply andb_true_iff in H1 as [Hin H1];
                      apply andb_true_iff; split; [exact Hin|]);
      apply IH; assumption.
Qed.

Lemma serve_spans r clk w :
  ∃ w' ops, serve r clk w = Some w' ∧ spans w' = spans w ++ ops ∧
    spans_ok [] ops = true ∧
    (tracer w = false → ops = []) ∧
    (tracer w = true →
       head ops = Some (SpanStart "sort-handler") ∧
       last ops = Some (SpanEnd "sort-handler")).
Proof.
  destruct (serve_cases r clk w)
    as [(code & warning & error & Hs & _) | (Hs & _)];
    eexists _, _; (split; [exact Hs|]); (split; [reflexivity|]);
    destruct (tracer w); (split; [reflexivity|]);
    (split; [intros Hf; reflexivity || discriminate Hf|]);
    intros Ht; (discriminate Ht || (split; reflexivity)).
Qed.

Lemma handle_spans c w :
  ∃ w' ops, handle c w = Some w' ∧ spans w' = spans w ++ ops ∧
    spans_ok [] ops = true ∧ tracer w' = tracer w ∧
    (tracer w = false → ops = []).
Proof.
  destruct c as [r clk | r].
  - destruct (serve_spans r clk w) as (w' & ops & Hs & Hsp & Hok & Hoff & _).
    exists w', ops. split; [exact Hs|]. split; [exact Hsp|].
    split; [exact Hok|]. split; [|exact Hoff].
    simpl in Hs.
    destruct (serve_cases r clk w)
      as [(code & warning & error & Hs' & _) | (Hs' & _)];
      rewrite Hs' in Hs; injection Hs as <-; reflexivity.
  - exists (health_world w), []. split; [apply handle_health|].
    split; [symmetry; apply app_nil_r|]. repeat split.
Qed.

Lemma handle_all_spans cs : ∀ w,
  ∃ w' ops, handle_all cs w = Some w' ∧ spans w' = spans w ++ ops ∧
    spans_ok [] ops = true ∧ tracer w' = tracer w ∧
    (tracer w = false → ops = []).
Proof.
  induction cs as [|c cs IH]; intros w.
  - exists w, []. split; [reflexivity|].
    split; [symmetry; apply app_nil_r|]. repeat split.
  - destruct (handle_spans c w) as (w1 & ops1 & Hc & Hsp1 & Hok1 & Ht1 & Hoff1).
    destruct (IH w1) as (w' & ops2 & Hall & Hsp2 & Hok2 & Ht2 & Hoff2).
    exists w', (ops1 ++ ops2). split; [simpl; rewrite Hc; exact Hall|].
    split; [rewrite Hsp2, Hsp1, app_assoc; reflexivity|].
    split; [apply spans_ok_app; assumption|].
    split; [congruence|].
    intros Hoff. rewrite Hoff1, Hoff2 by congruence. reflexivity.
Qed.

End WithRuntime.

(** *** Properties of the handlers *)

(** X14: over any sequence of calls, handled one after the other,
    [sort_requests_total] grows by the number of calls of [/sort], and
    that growth is the growth of [errors_total] plus the number of new
    observations of the histogram: every sort request is either counted
    as an error or timed, never both and never neither.  The gauge is
    set once per observation.  Health checks move none of them. *)
Theorem counters_account_for_calls `{RT : GoRuntime}
    (cs : list Call) (w : World) :
  ∃ w', handle_all cs w = Some w' ∧
    sortRequests (metrics w')
    = sortRequests (metrics w) + Z.of_nat (sort_calls cs) ∧
    errorCounter (metrics w) <= errorCounter (metrics w') ∧
    (length (sortDuration (metrics w)) <= length (sortDuration (metrics w')))%nat ∧
    sortRequests (metrics w') - sortRequests (metrics w)
    = (errorCounter (metrics w') - errorCounter (metrics w))
      + (Z.of_nat (length (sortDuration (metrics w')))
         - Z.of_nat (length (sortDuration (metrics w)))) ∧
    (length (arraySize (metrics w')) - length (arraySize (metrics w))
     = length (sortDuration (metrics w'))
       - length (sortDuration (metrics w)))%nat.
Proof.
  destruct (handle_all_counters cs w)
    as (w' & Hall & Hreq & Herr & Hobs & Hsum & Hg & _).
  exists w'. repeat split; assumption.
Qed.

(** X15: over any sequence of calls the operations on spans are well
    bracketed: every span that is started is ended, attributes and
    events go to spans that are open, and no span is left open.  With
    [tracer] nil there is no operation at all.  A single sort request
    that is traced starts with the start of [sort-handler] and ends with
    its end. *)
Theorem spans_well_bracketed `{RT : GoRuntime}
    (cs : list Call) (r : Request) (clk : Clock) (w : World) :
  (∃ w' ops, handle_all cs w = Some w' ∧ spans w' = spans w ++ ops ∧
     spans_ok [] ops = true ∧ (tracer w = false → ops = [])) ∧
  (∃ w' ops, serve r clk w = Some w' ∧ spans w' = spans w ++ ops ∧
     (tracer w = true →
        head ops = Some (SpanStart "sort-handler") ∧
        last ops = Some (SpanEnd "sort-handler"))).
Proof.
  split.
  - destruct (handle_all_spans cs w) as (w' & ops & Hall & Hsp & Hok & _ & Hoff).
    exists w', ops. repeat split; assumption.
  - destruct (serve_spans r clk w) as (w' & ops & Hs & Hsp & _ & _ & Hon).
    exists w', ops. repeat split; try assumption; apply Hon; assumption.
Qed.

Lemma spans_well_bracketed_witness :
  tracer world0 = true ∧
  ∃ w' ops, serve GET odd_clock world0 = Some w' ∧
    spans w' = spans world0 ++ ops ∧
    head ops = Some (SpanStart "sort-handler") ∧
    last ops = Some (SpanEnd "sort-handler").
Proof.
  assert (Ht : tracer world0 = true) by reflexivity.
  split; [exact Ht|].
  destruct (spans_well_bracketed [] GET odd_clock world0)
    as (_ & w' & ops & Hs & Hsp & Hon).
  exists w', ops. split; [exact Hs|]. split; [exact Hsp | exact (Hon Ht)].
Defined.

(** X16: tracing does not change what the handler does: with [tracer]
    set and with [tracer] nil a request leaves the same collectors, the
    same log lines, the same random source and the same response; the
    spans alone differ, and without a tracer they are untouched. *)
Theorem tracing_does_not_interfere `{RT : GoRuntime}
    (r : Request) (clk : Clock) (w : World) :
  ∃ w0 w1,
    serve r clk (set_tracer false w) = Some w0 ∧
    serve r clk (set_tracer true w) = Some w1 ∧
    metrics w0 = metrics w1 ∧ logs w0 = logs w1 ∧
    rng w0 = rng w1 ∧ writer w0 = writer w1 ∧
    spans w0 = spans w.
Proof.
  destruct (decide (Method r = MethodGet)) as [Hm | Hm];
    [destruct (even_or_odd (UnixNano clk)) as [He | Ho]|];
    eexists _, _;
    [rewrite !(serve_even r clk _ Hm He)
    |rewrite !(serve_odd r clk _ Hm Ho)
    |rewrite !(serve_not_GET r clk _ Hm)];
    (split; [reflexivity|]); (split; [reflexivity|]);
    unfold rejected, accepted, accepted_with, set_tracer;
    cbn [metrics logs tracer spans rng writer];
    (split; [reflexivity|]); (split; [reflexivity|]);
    (split; [reflexivity|]); (split; [reflexivity|]);
    apply app_nil_r.
Qed.

(** X17: everything a sort request emits carries its id, the decimal
    text of the clock reading: every log line it adds has the field
    [requestID] with that id first, the one document of the response
    has it as [requestID], and when traced the span [sort-handler] gets
    it as the attribute [request.id]. *)
Theorem request_id_correlates `{RT : GoRuntime}
    (r : Request) (clk : Clock) (w : World) :
  ∃ w' new doc,
    serve r clk w = Some w' ∧
    logs w' = logs w ++ new ∧
    Forall (λ e, head (fields e)
                 = Some ("requestID"%string,
                         VString (formatInt (UnixNano clk)))) new ∧
    body (writer w') = [doc] ∧
    head doc = Some ("requestID"%string, formatInt (UnixNano clk)) ∧
    (tracer w = true →
       SpanSetAttributes "sort-handler" "request.id"
         (VString (formatInt (UnixNano clk))) ∈ spans w').
Proof.
  destruct (serve_cases r clk w)
    as [(code & warning & error & Hs & _) | (Hs & _)];
    eexists _, _, _; (split; [exact Hs|]); (split; [reflexivity|]);
    (split; [repeat (apply Forall_cons_2; [reflexivity|]); apply Forall_nil_2|]);
    (split; [reflexivity|]);
    (split; [reflexivity|]); intros Ht;
    unfold rejected, accepted, accepted_with; cbn [spans]; rewrite Ht;
    apply elem_of_app; right;
    apply list_elem_of_further, list_elem_of_here.
Qed.

Lemma request_id_correlates_witness :
  tracer world0 = true ∧
  ∃ w', serve GET odd_clock world0 = Some w' ∧
    SpanSetAttributes "sort-handler" "request.id"
      (VString (formatInt (UnixNano odd_clock))) ∈ spans w'.
Proof.
  assert (Ht : tracer world0 = true) by reflexivity.
  split; [exact Ht|].
  destruct (request_id_correlates GET odd_clock world0)
    as (w' & new & doc & Hs & _ & _ & _ & _ & Hattr).
  exists w'. split; [exact Hs | exact (Hattr Ht)].
Defined.

(** X18: every call, of [/sort] or of [/health] and whatever its
    outcome, leaves a response with the one header [Content-Type:
    application/json], with a status among 200, 400 and 405, and with
    exactly one JSON document in the body. *)
Theorem responses_well_formed `{RT : GoRuntime} (c : Call) (w : World) :
  ∃ w' code doc,
    handle c w = Some w' ∧
    header (writer w')
    = <["Content-Type"%string := "application/json"%string]> ∅ ∧
    header (writer w') !! "Content-Type"%string
    = Some "application/json"%string ∧
    statusCode (writer w') = Some code ∧
    (code = 200 ∨ code = 400 ∨ code = 405) ∧
    body (writer w') = [doc].
Proof.
  destruct c as [r clk | r].
  - destruct (decide (Method r = MethodGet)) as [Hm | Hm];
      [destruct (even_or_odd (UnixNano clk)) as [He | Ho]|];
      eexists _, _, _;
      (split; [simpl;
               first [apply (serve_even r clk w Hm He)
                     |apply (serve_odd r clk w Hm Ho)
                     |apply (serve_not_GET r clk w Hm)]|]);
      (split; [reflexivity|]);
      (split; [apply lookup_insert_eq|]);
      (split; [reflexivity|]);
      (split; [|reflexivity]);
      unfold StatusOK, StatusBadRequest, StatusMethodNotAllowed; tauto.
  - eexists _, _, _. split; [apply handle_health|].
    split; [reflexivity|]. split; [apply lookup_insert_eq|].
    split; [reflexivity|]. split; [left|]; reflexivity.
Qed.

(** X19: a GET with an odd id sets the gauge to 20000, takes exactly
    20000 draws from the random source, which it leaves where those
    draws leave it, and logs five lines; the two lines with numbers
    show the first ten of the draws and the first ten of the sorted
    draws. *)
Theorem accepted_request_effects `{RT : GoRuntime}
    (r : Request) (clk : Clock) (w : World) :
  Method r = "GET"%string → Z.odd (UnixNano clk) = true →
  ∃ w' numbers e1 e2 e3 e4 e5,
    serve r clk w = Some w' ∧
    (numbers, rng w') = Generator.draws (Z.to_nat 20000) (rng w) ∧
    arraySize (metrics w') = 20000 :: arraySize (metrics w) ∧
    tracer w' = tracer w ∧
    logs w' = logs w ++ [e1; e2; e3; e4; e5] ∧
    msg e2 = ("Unsorted (first 10): " +:+ formatSlice (take 10 numbers))%string ∧
    msg e3 = ("Sorted (first 10): "
              +:+ formatSlice (take 10 (Sort.mergeSort numbers)))%string.
Proof.
  intros Hm Ho.
  eexists _, (Generator.draws (Z.to_nat 20000) (rng w)).1, _, _, _, _, _.
  split; [apply (serve_odd r clk w Hm Ho)|].
  unfold accepted, accepted_with. cbn [rng metrics arraySize tracer logs].
  split; [symmetry; apply surjective_pairing|].
  split; [reflexivity|]. split; [reflexivity|]. split; [reflexivity|].
  cbn [msg]. rewrite SortFacts.parallelMergeSort_mergeSort.
  split; reflexivity.
Qed.

Lemma accepted_request_effects_witness :
  (Method GET = "GET"%string ∧ Z.odd (UnixNano odd_clock) = true) ∧
  ∃ w', serve GET odd_clock world0 = Some w' ∧
        arraySize (metrics w') = [20000].
Proof.
  assert (Hm : Method GET = "GET"%string) by reflexivity.
  assert (Ho : Z.odd (UnixNano odd_clock) = true) by reflexivity.
  split; [exact (conj Hm Ho)|].
  destruct (accepted_request_effects GET odd_clock world0 Hm Ho)
    as (w' & numbers & e1 & e2 & e3 & e4 & e5 & Hs & _ & Hg & _).
  exists w'. split; [exact Hs | exact Hg].
Defined.

(** X20: the dataset of the handler, 20000 numbers, is below the
    threshold of [parallelMergeSort]: whatever the random source
    yields, the sort of a request runs [mergeSort] on the goroutine of
    the handler and starts no other. *)
Theorem handler_sort_is_sequential `{RT : GoRuntime} (s : RngState) :
  ∃ numbers s',
    Generator.generateRandomNumbers size s = Some (numbers, s') ∧
    Sort.parallelMergeSort_run numbers
    = (Sort.mergeSort numbers, Sort.Sequential numbers) ∧
    Sort.goroutines (Sort.parallelMergeSort_run numbers).2 = 0%nat.
Proof.
  exists (Generator.draws (Z.to_nat size) s).1,
         (Generator.draws (Z.to_nat size) s).2.
  rewrite <- surjective_pairing.
  split; [apply GeneratorFacts.generateRandomNumbers_draws;
          split; discriminate|].
  assert (Hlen : Sort.len (Generator.draws (Z.to_nat size) s).1 = size).
  { unfold Sort.len. rewrite GeneratorFacts.draws_length. unfold size. lia. }
  rewrite SortFacts.run_sequential
    by (rewrite Hlen; unfold size, Sort.threshold; lia).
  split; reflexivity.
Qed.

(** X21: the health check answers 200 with [{status: healthy}] to any
    request, whatever its method, and touches nothing but the log: the
    collectors, the spans and the random source stay as they were, so a
    sort request served after a health check behaves as it would have
    without it. *)
Theorem health_check_is_inert `{RT : GoRuntime}
    (h r : Request) (clk : Clock) (w : World) :
  ∃ wh w1 w2,
    handle (HealthCall h) w = Some wh ∧
    statusCode (writer wh) = Some 200 ∧
    body (writer wh) = [[("status"%string, "healthy"%string)]] ∧
    metrics wh = metrics w ∧ spans wh = spans w ∧ rng wh = rng w ∧
    length (logs wh) = S (length (logs w)) ∧
    handle_all [HealthCall h; SortCall r clk] w = Some w1 ∧
    handle (SortCall r clk) w = Some w2 ∧
    metrics w1 = metrics w2 ∧ spans w1 = spans w2 ∧
    rng w1 = rng w2 ∧ writer w1 = writer w2.
Proof.
  destruct (decide (Method r = MethodGet)) as [Hm | Hm];
    [destruct (even_or_odd (UnixNano clk)) as [He | Ho]|];
    eexists (health_world w), _, _;
    (split; [apply handle_health|]);
    (split; [reflexivity|]); (split; [reflexivity|]);
    (split; [reflexivity|]); (split; [reflexivity|]);
    (split; [reflexivity|]);
    (split; [unfold health_world; cbn [logs]; rewrite length_app; simpl; lia|]);
    cbn [handle_all]; rewrite handle_health; cbn [handle];
    first [rewrite !(serve_even r clk _ Hm He)
          |rewrite !(serve_odd r clk _ Hm Ho)
          |rewrite !(serve_not_GET r clk _ Hm)];
    (split; [reflexivity|]); (split; [reflexivity|]);
    unfold rejected, accepted, accepted_with, health_world;
    cbn [metrics logs tracer spans rng writer];
    repeat (split; [reflexivity|]); reflexivity.
Qed.

(** X22: the request id tells arrival times apart: for two clock
    readings within the range of [int64], the ids are the same text
    exactly when the readings are the same nanosecond. *)
Theorem request_ids_distinct (c1 c2 : Clock) :
  minInt64 <= arrival c1 <= maxInt64 →
  minInt64 <= arrival c2 <= maxInt64 →
  (formatInt (UnixNano c1) = formatInt (UnixNano c2)
   ↔ arrival c1 = arrival c2).
Proof.
  intros H1 H2. unfold UnixNano.
  rewrite !StrconvFacts.wrap64_id by assumption. split.
  - intros Heq.
    pose proof (StrconvFacts.ParseInt_formatInt (arrival c1) H1) as Hp1.
    pose proof (StrconvFacts.ParseInt_formatInt (arrival c2) H2) as Hp2.
    rewrite Heq in Hp1. congruence.
  - intros ->. reflexivity.
Qed.

Lemma request_ids_distinct_witness :
  formatInt (UnixNano odd_clock) ≠ formatInt (UnixNano even_clock).
Proof.
  assert (H1 : minInt64 <= arrival odd_clock <= maxInt64)
    by (split; discriminate).
  assert (H2 : minInt64 <= arrival even_clock <= maxInt64)
    by (split; discriminate).
  intros Heq.
  pose proof (proj1 (request_ids_distinct odd_clock even_clock H1 H2) Heq)
    as Harr.
  discriminate Harr.
Defined.

End HandlerMore.

(** ** The variant without tracing *)

Module PlainFacts.
Import Strconv Plain PlainSpec.

Ltac plain_run_handler :=
  unfold serve, sortHandler, reject,
    logger_log, Header_Set, WriteHeader, Encode,
    Counter_Inc_sortRequests, Counter_Inc_errorCounter,
    Gauge_Set_arraySize, Histogram_Observe_sortDuration,
    call_generateRandomNumbers, slice_prefix, bind, ret, panic,
    on_metrics, on_writer.

Ltac plain_fields :=
  cbn [metrics logs rng writer fst snd negb].

Section WithRuntime.
Context `{RT : GoRuntime}.

Lemma plain_generate_loop_unfold n i numbers s :
  generate_loop n i numbers s =
  if i <? n then
    generate_loop n (i + 1)
      (<[Z.to_nat i := (rand_Intn 20000000 s).1]> numbers)
      (rand_Intn 20000000 s).2
  else (numbers, s).
Proof.
  funelim (generate_loop n i numbers s); rewrite ?Hi, ?e; reflexivity.
Qed.

Lemma plain_generate_loop_draws (k : nat) : ∀ n i numbers s,
  0 <= i → n - i = Z.of_nat k → Sort.len numbers = n →
  generate_loop n i numbers s =
  (take (Z.to_nat i) numbers ++ (draws k s).1, (draws k s).2).
Proof.
  unfold Sort.len.
  induction k as [|k IH]; intros n i numbers s Hi Hk Hlen;
    rewrite plain_generate_loop_unfold.
  - rewrite (proj2 (Z.ltb_ge _ _)) by lia.
    simpl. rewrite app_nil_r, take_ge by lia. reflexivity.
  - rewrite (proj2 (Z.ltb_lt _ _)) by lia.
    rewrite IH by (rewrite ?length_insert; lia).
    replace (Z.to_nat (i + 1)) with (S (Z.to_nat i)) by lia.
    rewrite (take_S_r _ _ (rand_Intn 20000000 s).1)
      by (apply list_lookup_insert_eq; lia).
    rewrite take_insert_ge by lia.
    simpl. destruct (draws _ _) as [rest s']. simpl.
    rewrite <- app_assoc. reflexivity.
Qed.

Lemma plain_generateRandomNumbers_draws size s :
  0 <= size <= 2 ^ 45 →
  generateRandomNumbers size s = Some (draws (Z.to_nat size) s).
Proof.
  intros Hsize. unfold generateRandomNumbers.
  rewrite make_panics_false by exact Hsize.
  rewrite (plain_generate_loop_draws (Z.to_nat size))
    by (unfold Sort.len; rewrite ?length_replicate; lia).
  simpl. destruct (draws _ _). reflexivity.
Qed.

Lemma plain_draws_length n s : length (draws n s).1 = n.
Proof.
  revert s. induction n as [|n IH]; intros s; simpl; [reflexivity|].
  specialize (IH (rand_Intn 20000000 s).2).
  destruct (draws n _). simpl in *. lia.
Qed.

Lemma plain_draws_Forall (P : Z → Prop) n s :
  (∀ s', P (rand_Intn 20000000 s').1) → Forall P (draws n s).1.
Proof.
  intros Hdraw. revert s. induction n as [|n IH]; intros s; simpl.
  - constructor.
  - specialize (IH (rand_Intn 20000000 s).2).
    destruct (draws n _). simpl in *. constructor; [apply Hdraw | exact IH].
Qed.

Lemma plain_serve_not_GET r clk w :
  Handler.Method r ≠ Handler.MethodGet →
  serve r clk w =
  Some (rejected Handler.StatusMethodNotAllowed "Method not allowed" clk w).
Proof.
  intros Hm. apply String.eqb_neq in Hm.
  plain_run_handler. plain_fields. rewrite Hm. plain_fields.
  unfold rejected. rewrite <- ?app_assoc. reflexivity.
Qed.

Lemma plain_serve_even r clk w :
  Handler.Method r = Handler.MethodGet →
  Z.even (Handler.UnixNano clk) = true →
  serve r clk w =
  Some (rejected Handler.StatusBadRequest "Request is even" clk w).
Proof.
  intros Hm Hev. apply String.eqb_eq in Hm.
  plain_run_handler. plain_fields.
  rewrite Hm, HandlerFacts.gate_even, Hev. plain_fields.
  unfold rejected. rewrite <- ?app_assoc. reflexivity.
Qed.

Lemma plain_serve_odd r clk w :
  Handler.Method r = Handler.MethodGet →
  Z.odd (Handler.UnixNano clk) = true →
  serve r clk w = Some (accepted clk w).
Proof.
  intros Hm Hodd. apply String.eqb_eq in Hm.
  rewrite <- Z.negb_even in Hodd. apply negb_true_iff in Hodd.
  pose proof (plain_generateRandomNumbers_draws size (rng w)) as Hgen.
  unfold accepted.
  destruct (draws (Z.to_nat size) (rng w)) as [numbers s'] eqn:Hd.
  assert (H10 : (10 ≤ length numbers)%nat).
  { pose proof (plain_draws_length (Z.to_nat size) (rng w)) as Hlen.
    rewrite Hd in Hlen. simpl in Hlen. unfold size in Hlen. lia. }
  assert (H10' : (10 ≤ length (Sort.parallelMergeSort numbers))%nat).
  { rewrite SortFacts.parallelMergeSort_mergeSort.
    rewrite (Permutation_length (SortFacts.mergeSort_Permutation numbers)).
    exact H10. }
  plain_run_handler. plain_fields.
  rewrite Hm, HandlerFacts.gate_even, Hodd. plain_fields.
  rewrite Hgen by (split; discriminate). plain_fields.
  rewrite !decide_True by assumption. plain_fields.
  unfold accepted_with. rewrite <- ?app_assoc. reflexivity.
Qed.

End WithRuntime.

(** X23: in the variant without tracing, too,
    [generateRandomNumbers size] returns, for every [size] from 0 to
    [2 ^ 45], the largest length [make] allocates, and every state of
    the random source, [size] integers, one draw each, in
    [[0, 20000000)]; a negative size and one above [2 ^ 45] panic. *)
Theorem plain_generateRandomNumbers_size_range
    `{RT : GoRuntime} {RTS : GoRuntimeSpec RT} (n : Z) (s : RngState) :
  (0 <= n <= 2 ^ 45 →
   ∃ numbers s',
     generateRandomNumbers n s = Some (numbers, s') ∧
     (numbers, s') = draws (Z.to_nat n) s ∧
     Sort.len numbers = n ∧
     Forall (λ x, 0 <= x < 20000000) numbers) ∧
  (n < 0 ∨ 2 ^ 45 < n → generateRandomNumbers n s = None).
Proof.
  split.
  - intros Hn.
    exists (draws (Z.to_nat n) s).1, (draws (Z.to_nat n) s).2.
    rewrite <- surjective_pairing.
    split; [apply plain_generateRandomNumbers_draws; exact Hn|].
    split; [reflexivity|]. split.
    + unfold Sort.len. rewrite plain_draws_length. lia.
    + apply plain_draws_Forall. intros s0. apply rand_Intn_range. lia.
  - intros Hn. unfold generateRandomNumbers.
    rewrite make_panics_true by exact Hn. reflexivity.
Qed.

Lemma plain_generateRandomNumbers_size_range_witness :
  (0 <= 3 <= 2 ^ 45 ∧
   ∃ numbers s',
     generateRandomNumbers (RT := testRuntime) 3 (42 : Z)
     = Some (numbers, s') ∧
     Forall (λ x, 0 <= x < 20000000) numbers) ∧
  ((2 ^ 62 < 0 ∨ 2 ^ 45 < 2 ^ 62) ∧
   generateRandomNumbers (RT := testRuntime) (2 ^ 62) (42 : Z) = None).
Proof.
  assert (H3 : 0 <= 3 <= 2 ^ 45) by (split; discriminate).
  assert (Hbig : 2 ^ 62 < 0 ∨ 2 ^ 45 < 2 ^ 62) by (right; reflexivity).
  split.
  - split; [exact H3|].
    destruct (proj1 (plain_generateRandomNumbers_size_range
                       (RT := testRuntime)
                       (RTS := GeneratorFacts.testRuntime_spec)
                       3 (42 : Z)) H3)
      as (numbers & s' & Hgen & _ & _ & Hall).
    exists numbers, s'. split; [exact Hgen | exact Hall].
  - split; [exact Hbig|].
    exact (proj2 (plain_generateRandomNumbers_size_range
                    (RT := testRuntime)
                    (RTS := GeneratorFacts.testRuntime_spec)
                    (2 ^ 62) (42 : Z)) Hbig).
Defined.

(** X24: the two variants of [sortHandler] answer alike: for the same
    request and the same clock readings they write the same response,
    header, status and body, and they move the two counters and the
    histogram alike, whatever the worlds they start in.  They differ in
    the value the gauge is set to, in the dataset and in the log. *)
Theorem variants_answer_alike `{RT : GoRuntime}
    (r : Handler.Request) (clk : Handler.Clock)
    (wp : World) (wt : Handler.World) :
  ∃ wp' wt' obs,
    serve r clk wp = Some wp' ∧
    Handler.serve r clk wt = Some wt' ∧
    writer wp' = Handler.writer wt' ∧
    Handler.sortRequests (metrics wp')
      = Handler.sortRequests (metrics wp) + 1 ∧
    Handler.sortRequests (Handler.metrics wt')
      = Handler.sortRequests (Handler.metrics wt) + 1 ∧
    Handler.errorCounter (metrics wp') - Handler.errorCounter (metrics wp)
      = Handler.errorCounter (Handler.metrics wt')
        - Handler.errorCounter (Handler.metrics wt) ∧
    Handler.sortDuration (metrics wp')
      = obs ++ Handler.sortDuration (metrics wp) ∧
    Handler.sortDuration (Handler.metrics wt')
      = obs ++ Handler.sortDuration (Handler.metrics wt).
Proof.
  destruct (decide (Handler.Method r = Handler.MethodGet)) as [Hm | Hm];
    [destruct (HandlerFacts.even_or_odd (Handler.UnixNano clk)) as [He | Ho]|].
  - eexists _, _, [].
    split; [apply (plain_serve_even r clk wp Hm He)|].
    split; [apply (HandlerFacts.serve_even r clk wt Hm He)|].
    unfold rejected, HandlerSpec.rejected.
    cbn [metrics writer Handler.metrics Handler.writer
         Handler.sortRequests Handler.errorCounter Handler.sortDuration].
    repeat (split; [reflexivity || lia|]). reflexivity.
  - eexists _, _, [Handler.elapsed clk].
    split; [apply (plain_serve_odd r clk wp Hm Ho)|].
    split; [apply (HandlerFacts.serve_odd r clk wt Hm Ho)|].
    unfold accepted, accepted_with, HandlerSpec.accepted,
      HandlerSpec.accepted_with.
    cbn [metrics writer Handler.metrics Handler.writer
         Handler.sortRequests Handler.errorCounter Handler.sortDuration].
    repeat (split; [reflexivity || lia|]). reflexivity.
  - eexists _, _, [].
    split; [apply (plain_serve_not_GET r clk wp Hm)|].
    split; [apply (HandlerFacts.serve_not_GET r clk wt Hm)|].
    unfold rejected, HandlerSpec.rejected.
    cbn [metrics writer Handler.metrics Handler.writer
         Handler.sortRequests Handler.errorCounter Handler.sortDuration].
    repeat (split; [reflexivity || lia|]). reflexivity.
Qed.

(** X25: in the variant without tracing a GET with an odd id draws
    20000000 numbers, sets the gauge to 20000000 and sorts with eight
    levels of forks: 510 goroutines and 256 blocks of 78125 numbers
    each, sorted sequentially.  It logs five lines, the one with the
    unsorted numbers at debug level and the one with the sorted numbers
    at warning level. *)
Theorem plain_accepted_request_forks `{RT : GoRuntime}
    (r : Handler.Request) (clk : Handler.Clock) (w : World) :
  Handler.Method r = "GET"%string → Z.odd (Handler.UnixNano clk) = true →
  ∃ w' numbers new,
    serve r clk w = Some w' ∧
    (numbers, rng w') = draws (Z.to_nat 20000000) (rng w) ∧
    Sort.len numbers = 20000000 ∧
    Handler.arraySize (metrics w')
      = 20000000 :: Handler.arraySize (metrics w) ∧
    Sort.fanout_levels (Sort.parallelMergeSort_run numbers).2 = 8%nat ∧
    Sort.goroutines (Sort.parallelMergeSort_run numbers).2 = 510%nat ∧
    Forall (λ b, Sort.len b = 78125)
      (SortRun.blocks (Sort.parallelMergeSort_run numbers).2) ∧
    logs w' = logs w ++ new ∧
    level <$> new = [InfoLevel; DebugLevel; WarnLevel; InfoLevel; InfoLevel].
Proof.
  intros Hm Ho.
  assert (Hlen : Sort.len (draws (Z.to_nat 20000000) (rng w)).1 = 20000000).
  { unfold Sort.len. rewrite plain_draws_length. lia. }
  assert (Hn8 : Sort.len (draws (Z.to_nat 20000000) (rng w)).1
                = 2 ^ Z.of_nat 8 * 78125)
    by (rewrite Hlen; reflexivity).
  destruct (SortMore.run_power_of_two 8 78125 _
              ltac:(reflexivity) ltac:(discriminate) ltac:(reflexivity) Hn8)
    as (Hlv & Hg & Hb).
  eexists _, (draws (Z.to_nat 20000000) (rng w)).1, _.
  split; [apply (plain_serve_odd r clk w Hm Ho)|].
  unfold accepted, accepted_with. cbn [rng metrics logs Handler.arraySize].
  split; [symmetry; apply surjective_pairing|].
  split; [exact Hlen|]. split; [reflexivity|]. split; [exact Hlv|].
  split; [change (2 ^ (Z.of_nat 8 + 1)) with 512 in Hg; lia|].
  split; [exact Hb|]. split; reflexivity.
Qed.

Lemma plain_accepted_request_forks_witness :
  (Handler.Method GET = "GET"%string
   ∧ Z.odd (Handler.UnixNano odd_clock) = true) ∧
  ∃ w', serve GET odd_clock plain_world0 = Some w' ∧
        Handler.arraySize (metrics w') = [20000000].
Proof.
  assert (Hm : Handler.Method GET = "GET"%string) by reflexivity.
  assert (Ho : Z.odd (Handler.UnixNano odd_clock) = true) by reflexivity.
  split; [exact (conj Hm Ho)|].
  destruct (plain_accepted_request_forks GET odd_clock plain_world0 Hm Ho)
    as (w' & numbers & new & Hs & _ & _ & Hg & _).
  exists w'. split; [exact Hs | exact Hg].
Defined.

End PlainFacts.
